(** * claude-usage: a shallow embedding of the usage accounting core

    The development follows [claude_usage.py] (batch aggregation: cost
    attribution, global deduplication, session accumulation, daily and
    monthly views) and [build/lib/claude_usage.py] (live monitor: per-session
    burn rate and the synthesized active block).

    Conventions.
    - Python [int] is [Z]; token counts are the integers read from the log.
    - Python [float] money and rates are idealised as rationals [Q]; Python's
      [==] on numbers is [Qeq] (written [==]), so [0.0 == 0] holds.
    - A naive [datetime] is the number of microseconds since 1970-01-01
      00:00:00, as a [Z]; a [timedelta] is a difference of two of them.
    - [dict]s whose iteration order is observable ([defaultdict]s that are
      listed or sorted afterwards) are association lists in insertion order;
      [dict]s and [set]s used only through lookups are [gmap]s and [gset]s. *)

From stdpp Require Import gmap strings list sorting.
From Stdlib Require Import Ascii QArith Qabs Qround Qminmax.

Local Open Scope string_scope.
Local Open Scope list_scope.
Local Open Scope Z_scope.

(** ** Python idioms shared by the modules *)

Module Py.

(** Truthiness of an [int] and of a number. *)
Definition truthy_int (n : Z) : bool := negb (n =? 0).
Definition truthy_num (q : Q) : bool := negb (Qeq_bool q 0).

(** Truthiness of an optional string: [None] and [""] are falsy. *)
Definition truthy_str (s : option string) : bool :=
  match s with
  | Some EmptyString => false
  | Some _ => true
  | None => false
  end.

(** [l[:k]] for an [int] k: a negative bound counts from the end. *)
Definition slice_to {A} (l : list A) (k : Z) : list A :=
  if k <? 0 then take (length l - Z.to_nat (- k)) l
  else take (Z.to_nat k) l.

(** [l[k:]] for an [int] k. *)
Definition slice_from {A} (l : list A) (k : Z) : list A :=
  if k <? 0 then drop (length l - Z.to_nat (- k)) l
  else drop (Z.to_nat k) l.

(** [limit or default] where [limit] is [None] or an [int]. *)
Definition or_default (limit : option Z) (default : Z) : Z :=
  match limit with
  | Some n => if n =? 0 then default else n
  | None => default
  end.

(** [s.split(sep)[-1]]: the text after the last occurrence of [sep]. *)
Fixpoint last_segment_aux (sep : ascii) (s acc : string) : string :=
  match s with
  | EmptyString => acc
  | String c s' =>
      if Ascii.eqb c sep then last_segment_aux sep s' EmptyString
      else last_segment_aux sep s' (acc +:+ String c EmptyString)
  end.

Definition last_segment (sep : ascii) (s : string) : string :=
  last_segment_aux sep s EmptyString.

(** [s[:n]]. *)
Fixpoint str_take (n : nat) (s : string) : string :=
  match n, s with
  | O, _ => EmptyString
  | S n', String c s' => String c (str_take n' s')
  | S _, EmptyString => EmptyString
  end.

(** [s < t] on [str]: lexicographic on code units. *)
Definition str_ltb (s t : string) : bool :=
  match String.compare s t with Lt => true | _ => false end.

(** A [dict] in insertion order. *)
Section Dict.
Context {K V : Type} `{EqDecision K}.

(** [d.get(k)]. *)
Fixpoint dict_get (k : K) (d : list (K * V)) : option V :=
  match d with
  | [] => None
  | (k', v) :: d' => if decide (k = k') then Some v else dict_get k d'
  end.

(** [d[k] = f(d[k])] on a [defaultdict] whose factory yields [dflt]: a
    missing key is created at the end. *)
Fixpoint dict_update (k : K) (f : V → V) (dflt : V) (d : list (K * V))
  : list (K * V) :=
  match d with
  | [] => [(k, f dflt)]
  | (k', v) :: d' =>
      if decide (k = k') then (k', f v) :: d'
      else (k', v) :: dict_update k f dflt d'
  end.

(** [d[k] = v]: an existing key keeps its place. *)
Definition dict_set (k : K) (v : V) (d : list (K * V)) : list (K * V) :=
  dict_update k (λ _, v) v d.
End Dict.

(** [sum(...)] over numbers: Python adds from the left, starting at [0]. *)
Definition sum_num (l : list Q) : Q := foldl Qplus 0%Q l.
Definition sum_int (l : list Z) : Z := foldl Z.add 0 l.

(** Stable insertion sort. [before y x] tells that the element [y] already
    placed must stay in front of the incoming [x], which stood to the left
    of [y] in the input: [sorted(l, key=k)] takes [before y x := k y < k x],
    and [sorted(l, key=k, reverse=True)] takes [before y x := k y > k x]. *)
Section Sorted.
Context {A : Type} (before : A → A → bool).

Fixpoint insert_sorted (x : A) (l : list A) : list A :=
  match l with
  | [] => [x]
  | y :: l' => if before y x then y :: insert_sorted x l' else x :: y :: l'
  end.

Fixpoint sorted (l : list A) : list A :=
  match l with
  | [] => []
  | x :: l' => insert_sorted x (sorted l')
  end.
End Sorted.

End Py.

(** ** Cost calculator ([get_pricing_data], [calculate_cost_from_tokens],
       [calculate_entry_cost]) *)

Module Cost.

(** Per-token rates of one model; a rate may be missing ([None]). *)
Record pricing := Pricing {
  input_cost_per_token : option Q;
  output_cost_per_token : option Q;
  cache_creation_input_token_cost : option Q;
  cache_read_input_token_cost : option Q
}.

(** The [usage] object of a log line, as [current_usage] holds it. *)
Record usage := Usage {
  input_tokens : Z;
  output_tokens : Z;
  cache_creation_input_tokens : Z;
  cache_read_input_tokens : Z
}.

(** The [costUSD] member of a log line. *)
Inductive json_cost :=
| CostAbsent
| CostNull
| CostNum (q : Q).

Inductive cost_mode := Auto | Calculate | Display.

Definition fallback_pricing : gmap string pricing :=
  <["claude-sonnet-4-20250514" :=
      Pricing (Some (3 # 1000000)) (Some (15 # 1000000)) None None]>
  (<["claude-opus-4-20250514" :=
      Pricing (Some (15 # 1000000)) (Some (75 # 1000000)) None None]> ∅).

(** [get_pricing_data]: [fetched] is the decoded price document, or [None]
    when the request or its decoding raised. Only [claude-] models are
    kept. *)
Definition get_pricing_data (fetched : option (gmap string pricing))
  : gmap string pricing :=
  match fetched with
  | Some all_pricing =>
      filter (λ kv, String.prefix "claude-" kv.1 = true) all_pricing
  | None => fallback_pricing
  end.

(** One [if rate and count: cost += count * rate] statement. *)
Definition add_category (cost : Q) (rate : option Q) (count : Z) : Q :=
  match rate with
  | Some r =>
      if Py.truthy_num r && Py.truthy_int count
      then (cost + inject_Z count * r)%Q
      else cost
  | None => cost
  end.

Definition calculate_cost_from_tokens
    (pricing_data : gmap string pricing) (tokens : usage) (model_name : string) : Q :=
  match pricing_data !! model_name with
  | None => 0%Q
  | Some p =>
      let cost := 0%Q in
      let cost := add_category cost (input_cost_per_token p) (input_tokens tokens) in
      let cost := add_category cost (output_cost_per_token p) (output_tokens tokens) in
      let cost := add_category cost (cache_creation_input_token_cost p)
                    (cache_creation_input_tokens tokens) in
      let cost := add_category cost (cache_read_input_token_cost p)
                    (cache_read_input_tokens tokens) in
      cost
  end.

(** The branch [if current_usage and current_model: ...; return 0] shared by
    the [calculate] and [auto] modes. [current_usage] is the four-key dict
    built by the caller, hence always truthy. *)
Definition cost_from_model
    (pricing_data : gmap string pricing) (current_usage : usage)
    (current_model : option string) : Q :=
  match current_model with
  | Some m =>
      if Py.truthy_str current_model
      then calculate_cost_from_tokens pricing_data current_usage m
      else 0%Q
  | None => 0%Q
  end.

Definition calculate_entry_cost
    (mode : cost_mode) (pricing_data : gmap string pricing)
    (costUSD : json_cost) (current_usage : usage)
    (current_model : option string) : Q :=
  match mode with
  | Display =>
      match costUSD with
      | CostNum q => if Py.truthy_num q then q else 0%Q
      | CostNull | CostAbsent => 0%Q
      end
  | Calculate => cost_from_model pricing_data current_usage current_model
  | Auto =>
      match costUSD with
      | CostNum q => q
      | CostNull | CostAbsent =>
          cost_from_model pricing_data current_usage current_model
      end
  end.

(** The declared cost read as a number, [0] when absent or null. *)
Definition declared_or_zero (c : json_cost) : Q :=
  match c with
  | CostNum q => q
  | CostNull | CostAbsent => 0%Q
  end.

(** What one category is worth: count times rate, and nothing when the
    table has no rate for it. *)
Definition category_cost (rate : option Q) (count : Z) : Q :=
  match rate with
  | Some r => (inject_Z count * r)%Q
  | None => 0%Q
  end.

(** The sum over the four categories for one table entry. *)
Definition tokens_times_rates (p : pricing) (u : usage) : Q :=
  (category_cost (input_cost_per_token p) (input_tokens u)
   + category_cost (output_cost_per_token p) (output_tokens u)
   + category_cost (cache_creation_input_token_cost p)
       (cache_creation_input_tokens u)
   + category_cost (cache_read_input_token_cost p)
       (cache_read_input_tokens u))%Q.

End Cost.

(** ** Decoded log lines

    The JSON codec and the ISO-8601 parser are collaborators: a line is taken
    as the decoder delivers it. *)

Module Log.

(** The [timestamp] member of a line. [TsParsed naive day] is a string that
    [datetime.fromisoformat] accepts: [naive] is the parsed instant after
    [replace(tzinfo=None)], [day] the [%Y-%m-%d] text that the activity-date
    code derives from it. [TsMalformed] is a string that makes
    [fromisoformat] raise [ValueError]; [TsNotString] is a value without
    [endswith] (a number, [null]), which raises [AttributeError]. *)
Inductive json_timestamp :=
| TsAbsent
| TsNotString
| TsMalformed
| TsParsed (naive : Z) (day : string).

(** A line with [message.usage]. *)
Record usage_entry := UsageEntry {
  message_id : option string;
  request_id : option string;
  timestamp : json_timestamp;
  model : option string;
  usage : Cost.usage;
  costUSD : Cost.json_cost
}.

Inductive line :=
| LBlank
| LInvalidJson
| LOther (ts : json_timestamp)
| LUsage (e : usage_entry).

(** [create_unique_hash]: [messageId:requestId], or [None] when either is
    missing. *)
Definition create_unique_hash (e : usage_entry) : option string :=
  match message_id e, request_id e with
  | Some m, Some r => Some (m +:+ ":" +:+ r)
  | _, _ => None
  end.

(** [current_timestamp] of the deduplication code: parse errors are
    swallowed there. *)
Definition current_timestamp (e : usage_entry) : option Z :=
  match timestamp e with
  | TsParsed naive _ => Some naive
  | _ => None
  end.

End Log.

(** ** Deduplication window (the [skip_duplicate] logic, the marking and the
       periodic cleanup of [process_files_with_global_dedup]) *)

Module Dedup.

(** Microseconds in one hour. *)
Definition hour : Z := 3600 * 1000000.

(** [timedelta(hours=h)]. *)
Definition hours (h : Z) : Z := h * hour.

Record store := Store {
  global_processed_hashes : gset string;
  hash_timestamps : gmap string Z
}.

Definition empty_store : store := Store ∅ ∅.

(** [abs((current - seen).total_seconds() / 3600)]. *)
Definition time_diff (current seen : Z) : Q :=
  Qabs (inject_Z (current - seen) / inject_Z 1000000 / inject_Z 3600).

(** The values that the source binds to its two tuning variables. *)
Definition default_window_hours : Z := 24.
Definition default_cleanup_threshold : Z := 10000.

Section Window.
(** The two tuning variables of the source function; the aggregation
    below runs the window at the values above. *)
Context (dedup_window_hours dedup_cleanup_threshold : Z).

Definition skip_duplicate
    (st : store) (unique_hash : option string) (current_timestamp : option Z) : bool :=
  match unique_hash with
  | Some h =>
      if Py.truthy_str unique_hash && bool_decide (h ∈ global_processed_hashes st)
      then
        match hash_timestamps st !! h, current_timestamp with
        | Some seen, Some current =>
            Qle_bool (time_diff current seen) (inject_Z dedup_window_hours)
        | _, _ => true
        end
      else false
  | None => false
  end.

(** Mark as processed, with the timestamp when there is one. *)
Definition mark_processed
    (st : store) (unique_hash : option string) (current_timestamp : option Z) : store :=
  match unique_hash with
  | Some h =>
      if Py.truthy_str unique_hash then
        Store ({[h]} ∪ global_processed_hashes st)
              (match current_timestamp with
               | Some current => <[h := current]> (hash_timestamps st)
               | None => hash_timestamps st
               end)
      else st
  | None => st
  end.

(** Periodic cleanup of the entries older than twice the window. *)
Definition cleanup (st : store) (current_timestamp : option Z) : store :=
  match current_timestamp with
  | Some current =>
      if Z.of_nat (size (hash_timestamps st)) >? dedup_cleanup_threshold then
        let cutoff_time := current - hours (dedup_window_hours * 2) in
        let old_hashes := filter (λ kv, kv.2 < cutoff_time) (hash_timestamps st) in
        Store (global_processed_hashes st ∖ dom old_hashes)
              (filter (λ kv, ¬ kv.2 < cutoff_time) (hash_timestamps st))
      else st
  | None => st
  end.

(** One usage entry through the window: whether it is admitted, and the
    store afterwards. *)
Definition admit_hash
    (st : store) (unique_hash : option string) (current_timestamp : option Z)
  : bool * store :=
  if skip_duplicate st unique_hash current_timestamp then (false, st)
  else (true, cleanup (mark_processed st unique_hash current_timestamp)
                      current_timestamp).

Definition admit_entry (st : store) (e : Log.usage_entry) : bool * store :=
  admit_hash st (Log.create_unique_hash e) (Log.current_timestamp e).

(** The admission decisions for a stream of entries, in order, from a
    given store. *)
Fixpoint admissions (st : store) (es : list Log.usage_entry) : list bool :=
  match es with
  | [] => []
  | e :: es' =>
      let '(ok, st') := admit_entry st e in
      ok :: admissions st' es'
  end.

(** The store after a stream of entries. *)
Definition run (st : store) (es : list Log.usage_entry) : store :=
  foldl (λ st e, (admit_entry st e).2) st es.
End Window.

End Dedup.

(** ** Aggregation store ([sort_all_files_by_timestamp],
       [process_files_with_global_dedup], [extract_session_info]) *)

Module Aggregation.

(** A session directory: the [Path] [projects_dir / name]. *)
Record session_dir := SessionDir {
  parent : string;
  name : string
}.

#[export] Instance session_dir_eq_dec : EqDecision session_dir.
Proof. solve_decision. Defined.

(** One [.jsonl] file with what the file system tells about it: [mtime] is
    [None] when [stat] raises, [content] is [None] when [open] raises. *)
Record log_file := LogFile {
  path : string;
  dir : session_dir;
  mtime : option Z;
  content : option (list Log.line)
}.

(** [datetime.max], 9999-12-31 23:59:59.999999. *)
Definition datetime_max : Z := 253402300799999999.

(** The loop of [get_earliest_timestamp]; the outer [None] is an exception
    that leaves the loop. *)
Fixpoint earliest_loop (lines : list Log.line) (earliest_date : option Z)
  : option (option Z) :=
  match lines with
  | [] => Some earliest_date
  | l :: lines' =>
      let ts :=
        match l with
        | Log.LBlank | Log.LInvalidJson => Log.TsAbsent
        | Log.LOther ts => ts
        | Log.LUsage e => Log.timestamp e
        end in
      match ts with
      | Log.TsAbsent | Log.TsMalformed => earliest_loop lines' earliest_date
      | Log.TsNotString => None
      | Log.TsParsed date _ =>
          earliest_loop lines'
            (match earliest_date with
             | None => Some date
             | Some e => if date <? e then Some date else earliest_date
             end)
      end
  end.

Definition get_earliest_timestamp (f : log_file) : option Z :=
  match content f with
  | Some lines => default None (earliest_loop lines None)
  | None => None
  end.

(** The pair [(primary_sort, secondary_sort)] of a file among [n] files. *)
Definition sort_key (n : nat) (f : log_file) : Z * Z :=
  let file_mtime := default datetime_max (mtime f) in
  let content_timestamp :=
    if (n <? 100)%nat then get_earliest_timestamp f else None in
  (file_mtime, default file_mtime content_timestamp).

(** [<] on the key tuples. *)
Definition key_ltb (a b : Z * Z) : bool :=
  (a.1 <? b.1) || ((a.1 =? b.1) && (a.2 <? b.2)).

(** [<=] on the key tuples. *)
Definition key_le (a b : Z * Z) : Prop :=
  a.1 < b.1 ∨ (a.1 = b.1 ∧ a.2 ≤ b.2).

Definition sort_all_files_by_timestamp (file_tuples : list log_file) : list log_file :=
  let n := length file_tuples in
  Py.sorted (λ y x, key_ltb (sort_key n y) (sort_key n x)) file_tuples.

(** [extract_session_info], the project name. *)
Definition project_name (session_dir_name : string) : string :=
  match session_dir_name with
  | String "-" rest => Py.last_segment "-" rest
  | _ => Py.last_segment "/" session_dir_name
  end.

Inductive command := Daily | Monthly | Session | Blocks.

Record options := Options {
  opt_command : command;
  opt_last : option Z
}.

(** A value of the [sessions_by_dir] dict. *)
Record session_data := SessionData {
  total_cost : Q;
  input_tokens : Z;
  output_tokens : Z;
  cache_creation_tokens : Z;
  cache_read_tokens : Z;
  last_activity : option string;
  models_used : gset string;
  session_dir_field : option session_dir
}.

Definition new_session : session_data :=
  SessionData 0 0 0 0 0 None ∅ None.

(** An element of the returned list. *)
Record session_result := SessionResult {
  sessionId : string;
  projectPath : string;
  inputTokens : Z;
  outputTokens : Z;
  cacheCreationTokens : Z;
  cacheReadTokens : Z;
  totalCost : Q;
  lastActivity : string;
  modelsUsed : list string
}.

Record state := State {
  dedup : Dedup.store;
  sessions_by_dir : list (session_dir * session_data);
  session_count : Z;
  total_entries_processed : Z;
  total_entries_skipped : Z
}.

Definition initial_state : state := State Dedup.empty_store [] 0 0 0.

(** [sessions_by_dir[d]] followed by an in-place update. *)
Definition update_session
    (d : session_dir) (f : session_data → session_data)
    (l : list (session_dir * session_data)) : list (session_dir * session_data) :=
  Py.dict_update d f new_session l.

(** The statements from [session_data = sessions_by_dir[session_dir]] to the
    [last_activity] update. *)
Definition accumulate
    (need_timestamps : bool) (d : session_dir) (e : Log.usage_entry)
    (entry_cost : Q) (activity_date : option string) (s : session_data)
  : session_data :=
  let u := Log.usage e in
  SessionData
    (total_cost s + entry_cost)%Q
    (input_tokens s + Cost.input_tokens u)
    (output_tokens s + Cost.output_tokens u)
    (cache_creation_tokens s + Cost.cache_creation_input_tokens u)
    (cache_read_tokens s + Cost.cache_read_input_tokens u)
    (match activity_date, last_activity s with
     | Some a, None =>
         if need_timestamps && Py.truthy_str activity_date
         then Some a else None
     | Some a, Some old =>
         if need_timestamps && Py.truthy_str activity_date && Py.str_ltb old a
         then Some a else Some old
     | None, old => old
     end)
    (match Log.model e with
     | Some m => if Py.truthy_str (Log.model e)
                 then {[m]} ∪ models_used s else models_used s
     | None => models_used s
     end)
    (Some d).

Definition need_timestamps (c : command) : bool :=
  match c with Daily | Session => true | Monthly | Blocks => false end.

(** The outcome of the body of the line loop. *)
Inductive outcome := Next | Raised.

Section Process.
Context (mode : Cost.cost_mode) (pricing_data : gmap string Cost.pricing)
        (opts : options).

(** The body of the line loop for one line of a file of directory [d];
    the boolean is [has_session_data]. *)
Definition process_line
    (d : session_dir) (acc : state * bool) (l : Log.line)
  : state * bool * outcome :=
  let '(st, has_session_data) := acc in
  match l with
  | Log.LBlank | Log.LInvalidJson | Log.LOther _ => (st, has_session_data, Next)
  | Log.LUsage e =>
      let processed := total_entries_processed st + 1 in
      let '(fresh, dd) :=
        Dedup.admit_entry Dedup.default_window_hours
          Dedup.default_cleanup_threshold (dedup st) e in
      if negb fresh then
        (State (dedup st) (sessions_by_dir st) (session_count st)
               processed (total_entries_skipped st + 1),
         has_session_data, Next)
      else
        let st1 := State dd (sessions_by_dir st) (session_count st)
                         processed (total_entries_skipped st) in
        let entry_cost :=
          Cost.calculate_entry_cost mode pricing_data (Log.costUSD e)
            (Log.usage e) (Log.model e) in
        let nt := need_timestamps (opt_command opts) in
        let aggregate activity_date :=
          (State dd
             (update_session d (accumulate nt d e entry_cost activity_date)
                (sessions_by_dir st))
             (session_count st) processed (total_entries_skipped st),
           true, Next) in
        if nt then
          match Log.timestamp e with
          | Log.TsAbsent => aggregate None
          | Log.TsParsed _ day => aggregate (Some day)
          | Log.TsNotString | Log.TsMalformed => (st1, has_session_data, Raised)
          end
        else aggregate None
  end.

(** The line loop: stops at the first line that raises. *)
Fixpoint process_lines
    (d : session_dir) (acc : state * bool) (lines : list Log.line)
  : state * bool * outcome :=
  match lines with
  | [] => (acc, Next)
  | l :: lines' =>
      match process_line d acc l with
      | (acc', Next) => process_lines d acc' lines'
      | (acc', Raised) => (acc', Raised)
      end
  end.

(** The [try] block of one file. *)
Definition process_file (st : state) (f : log_file) : state :=
  match content f with
  | None => st
  | Some lines =>
      match process_lines (dir f) (st, false) lines with
      | (st', has_session_data, Next) =>
          if has_session_data
             && negb (bool_decide
                        (Some (dir f) ∈ (session_dir_field ∘ snd) <$> sessions_by_dir st'))
          then State (dedup st') (sessions_by_dir st') (session_count st' + 1)
                     (total_entries_processed st') (total_entries_skipped st')
          else st'
      | (st', _, Raised) => st'
      end
  end.

(** The early exit test at the head of the file loop. *)
Definition stop_early (st : state) : bool :=
  match opt_last opts, opt_command opts with
  | Some last_limit, Session =>
      Py.truthy_int last_limit && (last_limit <=? session_count st)
  | _, _ => false
  end.

Fixpoint process_files (st : state) (files : list log_file) : state :=
  match files with
  | [] => st
  | f :: files' =>
      if stop_early st then st
      else process_files (process_file st f) files'
  end.

(** The test of the final loop: [continue] on an empty session. *)
Definition is_empty_session (s : session_data) : bool :=
  Qeq_bool (total_cost s) 0 && (input_tokens s =? 0) && (output_tokens s =? 0).

Definition to_result (ds : session_dir * session_data) : session_result :=
  let '(d, s) := ds in
  SessionResult
    (name d) (project_name (name d))
    (input_tokens s) (output_tokens s)
    (cache_creation_tokens s) (cache_read_tokens s)
    (total_cost s)
    (match last_activity s with
     | Some a => if Py.truthy_str (last_activity s) then a else "1970-01-01"
     | None => "1970-01-01"
     end)
    (elements (models_used s)).

Definition final_sessions (st : state) : list session_result :=
  to_result <$> filter (λ ds, is_empty_session ds.2 = false) (sessions_by_dir st).

Definition process_files_with_global_dedup
    (sorted_file_tuples : list log_file) : list session_result :=
  final_sessions (process_files initial_state sorted_file_tuples).

(** The tail of [aggregate_data_parallel]: sort what discovery found,
    then process. *)
Definition aggregate (all_jsonl_files : list log_file) : list session_result :=
  process_files_with_global_dedup (sort_all_files_by_timestamp all_jsonl_files).

(** The totals of one reported session. *)
Definition session_totals (r : session_result) : string * Q * Z * Z * Z * Z :=
  (sessionId r, totalCost r, inputTokens r, outputTokens r,
   cacheCreationTokens r, cacheReadTokens r).

(** Discovery lists the files of a corpus in an order that the corpus
    does not fix: the Claude paths come out of a [set] of strings, the
    directories out of [iterdir]. Two runs over the same corpus are two
    runs over two arrangements of its files. The corpus gives identical
    totals on every run when all arrangements agree on the totals of the
    sessions. *)
Definition order_independent (corpus : list log_file) : Prop :=
  ∀ run1 run2, run1 ≡ₚ corpus → run2 ≡ₚ corpus →
    session_totals <$> aggregate run1 ≡ₚ session_totals <$> aggregate run2.

End Process.

End Aggregation.

(** ** Daily view ([process_daily_with_projects]) *)

Module Daily.

Record project_group := ProjectGroup {
  project : string;
  sessions : Z;
  totalCost : Q;
  totalTokens : Z
}.

Record day := Day {
  date : string;
  projects : list project_group;
  day_totalCost : Q;
  totalSessions : Z
}.

Definition new_group : project_group := ProjectGroup "" 0 0 0.

(** The grouping key of a session. *)
Definition date_of (s : Aggregation.session_result) : string :=
  let last_activity := Aggregation.lastActivity s in
  if Py.truthy_str (Some last_activity)
     && negb (String.eqb last_activity "unknown")
     && negb (String.eqb last_activity "1970-01-01")
  then last_activity else "unknown".

Definition date_groups (session_data : list Aggregation.session_result)
  : list (string * list Aggregation.session_result) :=
  foldl (λ groups s, Py.dict_update (date_of s) (λ l, l ++ [s]) [] groups)
        [] session_data.

Definition project_of (s : Aggregation.session_result) : string :=
  match Aggregation.sessionId s with
  | String "-" rest => Py.last_segment "-" rest
  | _ => Py.last_segment "/" (Aggregation.projectPath s)
  end.

Definition add_to_group (s : Aggregation.session_result) (name : string)
    (g : project_group) : project_group :=
  ProjectGroup name (sessions g + 1)
    (totalCost g + Aggregation.totalCost s)%Q
    (totalTokens g
     + (Aggregation.inputTokens s + Aggregation.outputTokens s
        + Aggregation.cacheCreationTokens s + Aggregation.cacheReadTokens s)).

Definition project_groups (sessions : list Aggregation.session_result)
  : list (string * project_group) :=
  foldl (λ groups s,
           Py.dict_update (project_of s) (add_to_group s (project_of s))
             new_group groups)
        [] sessions.

Definition make_day (g : string * list Aggregation.session_result) : day :=
  let '(date, sessions) := g in
  let day_total := Py.sum_num (Aggregation.totalCost <$> sessions) in
  let projects :=
    Py.sorted (λ y x, negb (Qle_bool (totalCost y) (totalCost x)))
      (snd <$> project_groups sessions) in
  Day date projects day_total (Z.of_nat (length sessions)).

Definition process_daily_with_projects
    (session_data : list Aggregation.session_result) (limit : option Z) : list day :=
  let result := make_day <$> date_groups session_data in
  let result := Py.sorted (λ y x, Py.str_ltb (date x) (date y)) result in
  let display_limit := Py.or_default limit 30 in
  Py.slice_to result display_limit.

End Daily.

(** ** Monthly view ([process_monthly_data], [display_monthly]) *)

Module Monthly.

Record month_group := MonthGroup {
  month : string;
  totalCost : Q;
  totalSessions : Z
}.

Definition new_group : month_group := MonthGroup "" 0 0.

(** [day['date'][:7]]. *)
Definition month_of (d : Daily.day) : string := Py.str_take 7 (Daily.date d).

Definition add_day (d : Daily.day) (g : month_group) : month_group :=
  MonthGroup (month_of d)
    (totalCost g + Daily.day_totalCost d)%Q
    (totalSessions g + Daily.totalSessions d).

Definition monthly_groups (daily_data : list Daily.day)
  : list (string * month_group) :=
  foldl (λ groups d, Py.dict_update (month_of d) (add_day d) new_group groups)
        [] daily_data.

Definition process_monthly_data
    (daily_data : list Daily.day) (limit : option Z) : list month_group :=
  let result :=
    Py.sorted (λ y x, Py.str_ltb (month y) (month x))
      (snd <$> monthly_groups daily_data) in
  let display_limit := Py.or_default limit 10 in
  Py.slice_from result (- display_limit).

(** What [display_monthly] derives from the session list: the daily view
    at its default limit, then the rollup. *)
Definition display_monthly
    (data : list Aggregation.session_result) (limit : option Z) : list month_group :=
  let daily_data := Daily.process_daily_with_projects data None in
  process_monthly_data daily_data limit.

End Monthly.

(** ** Live monitor ([get_current_session_data], and the synthesized block of
       [find_active_session_block]) *)

Module Live.

(** The [timestamp] member of a line as the live scan reads it: [Raises]
    covers every value on which the parse or the comparison with the
    cut-off raises (the exception leaves the file loop). *)
Inductive timestamp :=
| Absent
| Raises
| Parsed (entry_time : Z).

(** The [message] of a line that has a [usage] object; [model] is [None]
    when the message has no [model] member. *)
Record usage_part := UsagePart {
  usage : Cost.usage;
  model : option string;
  costUSD : Cost.json_cost
}.

Inductive line :=
| Blank
| InvalidJson
| Json (ts : timestamp) (msg : option usage_part).

(** Microseconds in one minute. *)
Definition minute : Z := 60 * 1000000.

(** [timedelta(minutes=m)]. *)
Definition minutes (m : Z) : Z := m * minute.

(** [entry_time.strftime('%Y-%m-%d %H:%M')], as the index of the minute:
    the keys sort and subtract as the formatted texts do. *)
Definition minute_key (entry_time : Z) : Z := entry_time / minute.

Definition tokens_of (u : Cost.usage) : Z :=
  Cost.input_tokens u + Cost.output_tokens u
  + Cost.cache_creation_input_tokens u + Cost.cache_read_input_tokens u.

Record session_data := SessionData {
  sessionId : string;
  total_cost : Q;
  total_tokens : Z;
  start_time : option Z;
  last_activity : option Z;
  file_modified : Z;
  tokens_by_minute : list (Z * Z);
  cost_by_minute : list (Z * Q);
  models_used : gset string;
  usage_by_model : list (string * (Z * Q));
  realBurnRateTokens : Q;
  realBurnRateCost : Q
}.

(** The mutable locals of the scan of one file. *)
Record scan := Scan {
  s_total_cost : Q;
  s_total_tokens : Z;
  s_start_time : option Z;
  s_last_activity : option Z;
  s_tokens_by_minute : list (Z * Z);
  s_cost_by_minute : list (Z * Q);
  s_models_seen : gset string;
  s_token_cost_by_model : list (string * (Z * Q))
}.

Definition empty_scan : scan := Scan 0 0 None None [] [] ∅ [].

Section Scan.
Context (pricing_data : gmap string Cost.pricing).

Definition entry_cost (m : usage_part) : Q :=
  match costUSD m with
  | Cost.CostNum q => q
  | Cost.CostNull | Cost.CostAbsent =>
      match model m with
      | Some name =>
          if Py.truthy_str (model m)
          then Cost.calculate_cost_from_tokens pricing_data (usage m) name
          else 0%Q
      | None => 0%Q
      end
  end.

(** The [if 'message' in data and 'usage' in ... and entry_time] block. *)
Definition count_usage (entry_time : Z) (m : usage_part) (s : scan) : scan :=
  let tokens := tokens_of (usage m) in
  let key := minute_key entry_time in
  let cost := entry_cost m in
  Scan (s_total_cost s + cost)%Q
       (s_total_tokens s + tokens)
       (s_start_time s) (s_last_activity s)
       (Py.dict_update key (λ t, t + tokens) 0 (s_tokens_by_minute s))
       (Py.dict_update key (λ c, (c + cost)%Q) 0%Q (s_cost_by_minute s))
       (match model m with
        | Some name => {[name]} ∪ s_models_seen s
        | None => s_models_seen s
        end)
       (match model m with
        | Some name =>
            if Py.truthy_str (model m)
            then Py.dict_update name
                   (λ tc, (tc.1 + tokens, (tc.2 + cost)%Q)) (0, 0%Q)
                   (s_token_cost_by_model s)
            else s_token_cost_by_model s
        | None => s_token_cost_by_model s
        end).

(** The timing update for a line at or after the cut-off. *)
Definition track_timing (entry_time : Z) (s : scan) : scan :=
  Scan (s_total_cost s) (s_total_tokens s)
       (match s_start_time s with
        | None => Some entry_time
        | Some t => if entry_time <? t then Some entry_time else Some t
        end)
       (match s_last_activity s with
        | None => Some entry_time
        | Some t => if t <? entry_time then Some entry_time else Some t
        end)
       (s_tokens_by_minute s) (s_cost_by_minute s)
       (s_models_seen s) (s_token_cost_by_model s).

(** The line loop of one file; [None] when a line raises. *)
Fixpoint scan_lines (utc_cutoff : Z) (s : scan) (lines : list line) : option scan :=
  match lines with
  | [] => Some s
  | Blank :: lines' | InvalidJson :: lines' => scan_lines utc_cutoff s lines'
  | Json Raises _ :: _ => None
  | Json Absent _ :: lines' => scan_lines utc_cutoff s lines'
  | Json (Parsed entry_time) msg :: lines' =>
      if entry_time <? utc_cutoff then scan_lines utc_cutoff s lines'
      else
        let s := track_timing entry_time s in
        scan_lines utc_cutoff
          (match msg with
           | Some m => count_usage entry_time m s
           | None => s
           end)
          lines'
  end.

(** The burn rates of one scanned session: tokens per minute, cost per
    hour. *)
Definition burn_rates (s : scan) : Q * Q :=
  if (1 <=? length (s_tokens_by_minute s))%nat then
    let recent_minutes := Py.sorted Z.ltb (fst <$> s_tokens_by_minute s) in
    let recent_tokens :=
      Py.sum_int ((λ m, default 0 (Py.dict_get m (s_tokens_by_minute s)))
                    <$> recent_minutes) in
    let recent_cost :=
      Py.sum_num ((λ m, default 0%Q (Py.dict_get m (s_cost_by_minute s)))
                    <$> recent_minutes) in
    if (2 <=? length recent_minutes)%nat then
      let start_minute := default 0 (head recent_minutes) in
      let end_minute := default 0 (last recent_minutes) in
      let actual_duration_minutes := (inject_Z (end_minute - start_minute) + 1)%Q in
      (inject_Z recent_tokens / actual_duration_minutes,
       recent_cost / actual_duration_minutes * 60)%Q
    else (inject_Z recent_tokens, recent_cost * 60)%Q
  else (0, 0)%Q.

(** One recently modified file: its directory name, its modification
    time, the UTC clock read when its scan starts, and its lines ([None]
    when [open] raises). *)
Record recent_file := RecentFile {
  session_name : string;
  rf_modified : Z;
  now_utc : Z;
  lines : option (list line)
}.

(** The body of the loop over [recent_files]: the session entry to store,
    if any. *)
Definition scan_file (f : recent_file) : option session_data :=
  let utc_cutoff := now_utc f - minutes 2 in
  match lines f with
  | None => None
  | Some ls =>
      match scan_lines utc_cutoff empty_scan ls with
      | None => None
      | Some s =>
          if (0 <? s_total_tokens s) || negb (Qle_bool (s_total_cost s) 0) then
            let '(rate_tokens, rate_cost) := burn_rates s in
            Some (SessionData (session_name f)
                    (s_total_cost s) (s_total_tokens s)
                    (s_start_time s) (s_last_activity s) (rf_modified f)
                    (s_tokens_by_minute s) (s_cost_by_minute s)
                    (s_models_seen s) (s_token_cost_by_model s)
                    rate_tokens rate_cost)
          else None
      end
  end.

Definition get_current_session_data (recent_files : list recent_file)
  : list (string * session_data) :=
  foldl (λ current_sessions f,
           match scan_file f with
           | Some sd => Py.dict_set (session_name f) sd current_sessions
           | None => current_sessions
           end)
        [] recent_files.

End Scan.

(** The usage entries that the scan of a file counts, as pairs of entry
    time and tokens: those with a parsed timestamp at or after the
    cut-off. *)
Fixpoint counted (utc_cutoff : Z) (ls : list line) : list (Z * Z) :=
  match ls with
  | [] => []
  | Json (Parsed entry_time) (Some m) :: ls' =>
      if entry_time <? utc_cutoff then counted utc_cutoff ls'
      else (entry_time, tokens_of (usage m)) :: counted utc_cutoff ls'
  | _ :: ls' => counted utc_cutoff ls'
  end.

(** The per-minute token dict after counting the entries [evs] on top of
    [d]. *)
Definition bucket (evs : list (Z * Z)) (d : list (Z * Z)) : list (Z * Z) :=
  foldl (λ d ev, Py.dict_update (minute_key ev.1) (λ t, t + ev.2) 0 d) d evs.

Record token_counts := TokenCounts {
  inputTokens : Z;
  outputTokens : Z;
  cacheCreationInputTokens : Z;
  cacheReadInputTokens : Z
}.

Record synthetic_block := SyntheticBlock {
  startTime : Z;
  endTime : Z;
  tokenCounts : token_counts;
  costUSD_block : Q;
  activeSessionCount : Z;
  block_realBurnRateTokens : Q;
  block_realBurnRateCost : Q;
  tokensPerMinute : list (Z * Z)
}.

(** Totals over the active sessions, in the order of the dict. *)
Definition sum_tokens (current_sessions : list (string * session_data)) : Z :=
  foldl (λ acc kv, acc + total_tokens kv.2) 0 current_sessions.

Definition sum_cost (current_sessions : list (string * session_data)) : Q :=
  foldl (λ acc kv, (acc + total_cost kv.2)%Q) 0%Q current_sessions.

Definition sum_rate_tokens (current_sessions : list (string * session_data)) : Q :=
  foldl (λ acc kv, (acc + realBurnRateTokens kv.2)%Q) 0%Q current_sessions.

Definition sum_rate_cost (current_sessions : list (string * session_data)) : Q :=
  foldl (λ acc kv, (acc + realBurnRateCost kv.2)%Q) 0%Q current_sessions.

Definition earliest_start (current_sessions : list (string * session_data)) : option Z :=
  foldl (λ acc kv,
           match start_time kv.2, acc with
           | Some t, None => Some t
           | Some t, Some e => if t <? e then Some t else Some e
           | None, _ => acc
           end) None current_sessions.

Definition latest_activity (current_sessions : list (string * session_data)) : option Z :=
  foldl (λ acc kv,
           match last_activity kv.2, acc with
           | Some t, None => Some t
           | Some t, Some e => if e <? t then Some t else Some e
           | None, _ => acc
           end) None current_sessions.

Definition all_tokens_by_minute (current_sessions : list (string * session_data))
  : list (Z * Z) :=
  foldl (λ acc kv,
           foldl (λ acc' mt, Py.dict_update mt.1 (λ t, t + mt.2) 0 acc')
                 acc (tokens_by_minute kv.2))
        [] current_sessions.

(** The fallback of [find_active_session_block], taken when no persisted
    block is active: one block aggregated from all current sessions. *)
Definition synthesize (current_sessions : list (string * session_data))
  : option synthetic_block :=
  match current_sessions with
  | [] => None
  | _ :: _ =>
      let total_tokens := sum_tokens current_sessions in
      match latest_activity current_sessions with
      | Some latest =>
          if 0 <? total_tokens then
            let start_time := default latest (earliest_start current_sessions) in
            let end_time := latest + minutes 10 in
            Some (SyntheticBlock start_time end_time
                    (TokenCounts (total_tokens `div` 2) (total_tokens `div` 2) 0 0)
                    (sum_cost current_sessions)
                    (Z.of_nat (length current_sessions))
                    (sum_rate_tokens current_sessions)
                    (sum_rate_cost current_sessions)
                    (all_tokens_by_minute current_sessions))
          else None
      | None => None
      end
  end.

(** [sum(token_counts.values())], the total that the monitor shows. *)
Definition reported_tokens (c : token_counts) : Z :=
  Py.sum_int [inputTokens c; outputTokens c;
              cacheCreationInputTokens c; cacheReadInputTokens c].

End Live.

(** ** Text predicates *)

Module Text.

(** Whether the character [c] occurs in [s]. *)
Fixpoint contains (c : ascii) (s : string) : bool :=
  match s with
  | EmptyString => false
  | String c' s' => Ascii.eqb c' c || contains c s'
  end.

End Text.

(** ** The invariant of the session store *)

Module Invariants.

(** What every state of the processing loop satisfies, for a list [dirs] of
    directories that covers the files processed so far: the session counter
    is still 0, no directory has two accumulators, every accumulator
    records its own directory, and every directory comes from a file. *)
Definition store_ok
    (dirs : list Aggregation.session_dir) (st : Aggregation.state) : Prop :=
  Aggregation.session_count st = 0
  ∧ NoDup (Aggregation.sessions_by_dir st).*1
  ∧ (∀ d s, (d, s) ∈ Aggregation.sessions_by_dir st
            → Aggregation.session_dir_field s = Some d)
  ∧ (∀ d, d ∈ (Aggregation.sessions_by_dir st).*1 → d ∈ dirs).

End Invariants.

(** ** Date filter ([get_file_date_range], [should_include_file] and the
       file collection of [aggregate_data_parallel]) *)

Module DateFilter.

(** The [timestamp] member that the timestamp scans read on a line. *)
Definition line_timestamp (l : Log.line) : Log.json_timestamp :=
  match l with
  | Log.LBlank | Log.LInvalidJson => Log.TsAbsent
  | Log.LOther ts => ts
  | Log.LUsage e => Log.timestamp e
  end.


(** Microseconds in one day. *)
Definition day : Z := 24 * Dedup.hour.

(** [d.date()], as the number of the day. *)
Definition to_date (d : Z) : Z := d `div` day.

(** The loop of [get_file_date_range]; the outer [None] is an exception that
    leaves the loop. *)
Fixpoint range_loop
    (lines : list Log.line) (earliest_date latest_date : option Z)
  : option (option Z * option Z) :=
  match lines with
  | [] => Some (earliest_date, latest_date)
  | l :: lines' =>
      match line_timestamp l with
      | Log.TsAbsent | Log.TsMalformed =>
          range_loop lines' earliest_date latest_date
      | Log.TsNotString => None
      | Log.TsParsed date _ =>
          range_loop lines'
            (match earliest_date with
             | None => Some date
             | Some e => if date <? e then Some date else earliest_date
             end)
            (match latest_date with
             | None => Some date
             | Some l => if l <? date then Some date else latest_date
             end)
      end
  end.

Definition get_file_date_range (f : Aggregation.log_file) : option Z * option Z :=
  match Aggregation.content f with
  | Some lines => default (None, None) (range_loop lines None None)
  | None => (None, None)
  end.

(** [since_date] and [until_date] are parsed from [%Y-%m-%d] texts: each is
    the midnight of a day, given here by the number of that day. *)
Definition midnight (d : Z) : Z := d * day.

(** [until_date.replace(hour=23, minute=59, second=59)]. *)
Definition until_plus_day (d : Z) : Z := midnight d + (day - 1000000).

(** The try block on the modification time: [true] when the file is
    excluded at once. A [stat] that raises excludes nothing. *)
Definition excluded_by_mtime
    (f : Aggregation.log_file) (since_date until_date : option Z) : bool :=
  match Aggregation.mtime f with
  | None => false
  | Some file_mtime =>
      match since_date with
      | Some s => file_mtime <? midnight s
      | None => false
      end
      || match until_date with
         | Some u => until_plus_day u <? file_mtime
         | None => false
         end
  end.

Definition should_include_file
    (f : Aggregation.log_file) (since_date until_date : option Z) : bool :=
  match since_date, until_date with
  | None, None => true
  | _, _ =>
      if excluded_by_mtime f since_date until_date then false
      else
        match get_file_date_range f with
        | (None, None) => false
        | (earliest, latest) =>
            negb (match since_date, latest with
                  | Some s, Some l => to_date l <? s
                  | _, _ => false
                  end)
            && negb (match until_date, earliest with
                     | Some u, Some e => u <? to_date e
                     | _, _ => false
                     end)
        end
  end.

(** The collection loop of [aggregate_data_parallel] over the files that
    discovery lists: the files kept and the count of those filtered out. *)
Definition collect
    (discovered : list Aggregation.log_file) (since_date until_date : option Z)
  : list Aggregation.log_file * Z :=
  foldl (λ acc f,
           if should_include_file f since_date until_date
           then (acc.1 ++ [f], acc.2)
           else (acc.1, acc.2 + 1))
        ([], 0) discovered.

(** [aggregate_data_parallel] once the two date options are parsed. *)
Definition aggregate_data_parallel
    (mode : Cost.cost_mode) (pricing_data : gmap string Cost.pricing)
    (opts : Aggregation.options) (since_date until_date : option Z)
    (discovered : list Aggregation.log_file) : list Aggregation.session_result :=
  Aggregation.aggregate mode pricing_data opts
    (collect discovered since_date until_date).1.

End DateFilter.

(** ** The costs that the live scan counts *)

Module LiveCost.



End LiveCost.

(** ** Monitor display helpers ([create_progress_bar] and [format_time]) *)

Module Monitor.

(** [int(x)] on a number: truncation toward zero. *)
Definition int_of (x : Q) : Z := Qnum x `quot` Zpos (Qden x).

(** The cells of a bar: the full block, the cursor, the light shade. *)
Inductive cell := Filled | Cursor | Shade.

(** [max(0, min(100, percentage))]. *)
Definition clamp (percentage : Q) : Q := Qmax 0 (Qmin 100 percentage).

(** [create_progress_bar]: the status text and the cells that follow it
    after one space. A repetition by a negative count is empty. *)
Definition create_progress_bar
    (percentage : Q) (width : Z) (status_color : string) : string * list cell :=
  let pct := clamp percentage in
  if Qle_bool 100 pct then
    let filled := width in
    (status_color, replicate (Z.to_nat filled) Filled)
  else
    let filled := int_of (inject_Z width * pct / 100) in
    let cursor := if negb (Qle_bool 100 pct) then 1 else 0 in
    let empty := Z.max 0 (width - filled - cursor) in
    (status_color,
     replicate (Z.to_nat filled) Filled
     ++ (if Py.truthy_int cursor then [Cursor] else [])
     ++ replicate (Z.to_nat empty) Shade).

(** The three shapes of the text of [format_time]: [Nm], [Nh] and [Nh Mm]. *)
Inductive duration :=
| Minutes (m : Z)
| Hours (h : Z)
| HoursMinutes (h m : Z).

(** [minutes // 60] and [minutes % 60] on numbers. *)
Definition floordiv60 (minutes : Q) : Z := Qfloor (minutes / 60).
Definition mod60 (minutes : Q) : Q := minutes - 60 * inject_Z (floordiv60 minutes).

Definition format_time (minutes : Q) : duration :=
  if negb (Qle_bool 60 minutes) then Minutes (int_of minutes)
  else
    let hours := floordiv60 minutes in
    let mins := int_of (mod60 minutes) in
    if mins =? 0 then Hours hours else HoursMinutes hours mins.

(** The whole minutes that a formatted duration stands for. *)
Definition whole_minutes (d : duration) : Z :=
  match d with
  | Minutes m => m
  | Hours h => 60 * h
  | HoursMinutes h m => 60 * h + m
  end.

End Monitor.

(** * Properties *)

(** ** Cost calculator *)

Module CostFacts.
Import Cost.

Lemma truthy_num_false q : Py.truthy_num q = false → q == 0.
Proof.
  unfold Py.truthy_num. intros H. apply negb_false_iff in H.
  by apply Qeq_bool_iff.
Qed.

Lemma truthy_int_false n : Py.truthy_int n = false → n = 0.
Proof. unfold Py.truthy_int. intros H. apply negb_false_iff in H. lia. Qed.

(** A skipped category would have added nothing. *)
Lemma add_category_sum cost rate count :
  add_category cost rate count == cost + category_cost rate count.
Proof.
  unfold add_category, category_cost. destruct rate as [r|]; [|ring].
  destruct (Py.truthy_num r) eqn:Hr; simpl.
  - destruct (Py.truthy_int count) eqn:Hc; [reflexivity|].
    apply truthy_int_false in Hc. subst count. ring.
  - apply truthy_num_false in Hr. rewrite Hr. ring.
Qed.

Lemma calculate_cost_known pd u m p :
  pd !! m = Some p → calculate_cost_from_tokens pd u m == tokens_times_rates p u.
Proof.
  intros Hp. unfold calculate_cost_from_tokens, tokens_times_rates.
  rewrite Hp. cbv zeta. rewrite !add_category_sum. ring.
Qed.

Lemma calculate_cost_unknown pd u m :
  pd !! m = None → calculate_cost_from_tokens pd u m = 0%Q.
Proof. intros Hp. unfold calculate_cost_from_tokens. by rewrite Hp. Qed.

(** No price table that [get_pricing_data] returns has the empty model
    name as a key. *)
Lemma pricing_no_empty_key fetched : get_pricing_data fetched !! "" = None.
Proof.
  destruct fetched as [all|]; simpl.
  - apply map_lookup_filter_None. right. intros p _. simpl. discriminate.
  - unfold fallback_pricing. by rewrite !lookup_insert_ne, lookup_empty.
Qed.

Lemma cost_from_model_lookup fetched u model :
  let pd := get_pricing_data fetched in
  match model ≫= (pd !!.) with
  | Some p => cost_from_model pd u model == tokens_times_rates p u
  | None => cost_from_model pd u model = 0%Q
  end.
Proof.
  intros pd. destruct model as [m|]; simpl; [|done].
  destruct m as [|c m].
  - subst pd. by rewrite pricing_no_empty_key.
  - destruct (pd !! String c m) as [p|] eqn:Hp.
    + by apply calculate_cost_known.
    + by apply calculate_cost_unknown.
Qed.

(** C6. The [calculate] mode does not look at the declared cost. When the
    entry's model is in the price table, the cost is the sum over the four
    token categories of count times rate, a category without a rate
    counting for 0; when the entry has no model, or one that the table
    does not list, the cost is exactly 0. No case raises: the function is
    total. *)
Theorem calculate_mode_sum
    (fetched : option (gmap string pricing)) (declared declared' : json_cost)
    (u : usage) (model : option string) :
  let pd := get_pricing_data fetched in
  calculate_entry_cost Calculate pd declared u model
  = calculate_entry_cost Calculate pd declared' u model
  ∧ match model ≫= (pd !!.) with
    | Some p =>
        calculate_entry_cost Calculate pd declared u model
        == category_cost (input_cost_per_token p) (input_tokens u)
           + category_cost (output_cost_per_token p) (output_tokens u)
           + category_cost (cache_creation_input_token_cost p)
               (cache_creation_input_tokens u)
           + category_cost (cache_read_input_token_cost p)
               (cache_read_input_tokens u)
    | None => calculate_entry_cost Calculate pd declared u model = 0%Q
    end
  ∧ (∀ count, category_cost None count = 0%Q).
Proof.
  intros pd. split; [done|]. split; [|done].
  apply (cost_from_model_lookup fetched u model).
Qed.

(** The declared cost read by the [display] mode. *)
Lemma display_declared pd declared u model :
  calculate_entry_cost Display pd declared u model == declared_or_zero declared.
Proof.
  destruct declared as [| |q]; simpl; try reflexivity.
  destruct (Py.truthy_num q) eqn:Hq; [reflexivity|].
  apply truthy_num_false in Hq. by rewrite Hq.
Qed.

(** C4. In [display] mode the cost is the declared [costUSD] (0 when absent
    or null) whatever the tokens, the model and the price table are. In
    [auto] mode it is the declared cost when that is a number, and the
    [calculate]-mode cost otherwise. So an entry that declares 5 while its
    tokens compute to 7 costs 5 under [display], 7 under [calculate] and 5
    under [auto]. *)
Theorem cost_modes
    (fetched : option (gmap string pricing)) (declared : json_cost)
    (u : usage) (model : option string) :
  let pd := get_pricing_data fetched in
  calculate_entry_cost Display pd declared u model == declared_or_zero declared
  ∧ (∀ pd' u' model',
       calculate_entry_cost Display pd' declared u' model'
       = calculate_entry_cost Display pd declared u model)
  ∧ (∀ q, declared = CostNum q →
          calculate_entry_cost Auto pd declared u model = q)
  ∧ (declared = CostAbsent ∨ declared = CostNull →
     calculate_entry_cost Auto pd declared u model
     = calculate_entry_cost Calculate pd declared u model)
  ∧ (declared = CostNum 5 →
     calculate_entry_cost Calculate pd declared u model == 7 →
     calculate_entry_cost Display pd declared u model == 5
     ∧ calculate_entry_cost Calculate pd declared u model == 7
     ∧ calculate_entry_cost Auto pd declared u model == 5).
Proof.
  intros pd. split; [apply display_declared|].
  split; [by destruct declared|].
  split; [by intros q ->|].
  split; [by intros [-> | ->]|].
  intros -> H7. split; [|split]; [|done|]; reflexivity.
Qed.

(** An entry that declares 5 USD and whose 7 input tokens cost 1 USD each
    in the fetched table. *)
Lemma cost_modes_witness :
  let pd := get_pricing_data
              (Some (<["claude-x" := Pricing (Some 1%Q) None None None]> ∅)) in
  let u := Usage 7 0 0 0 in
  calculate_entry_cost Display pd (CostNum 5) u (Some "claude-x") == 5
  ∧ calculate_entry_cost Calculate pd (CostNum 5) u (Some "claude-x") == 7
  ∧ calculate_entry_cost Auto pd (CostNum 5) u (Some "claude-x") == 5.
Proof.
  apply (cost_modes
           (Some (<["claude-x" := Pricing (Some 1%Q) None None None]> ∅))
           (CostNum 5) (Usage 7 0 0 0) (Some "claude-x")).
  - reflexivity.
  - vm_compute. reflexivity.
Defined.

End CostFacts.

(** ** Deduplication window *)

Module DedupFacts.
Import Log Dedup.

(** The hour comparison of the source, read on the microsecond clock. *)
Lemma time_diff_within w current seen :
  Qle_bool (time_diff current seen) (inject_Z w) = true
  ↔ Z.abs (current - seen) ≤ hours w.
Proof.
  unfold time_diff, hours, hour. rewrite Qle_bool_iff.
  set (d := current - seen).
  assert (Hx : inject_Z d / inject_Z 1000000 / inject_Z 3600 == d # 3600000000).
  { unfold Qdiv, Qmult, Qinv, inject_Z, Qeq. simpl. lia. }
  rewrite Hx. unfold Qabs, Qle, inject_Z. simpl Qnum. simpl Qden. lia.
Qed.

(** A fingerprint is never the empty string. *)
Lemma unique_hash_truthy e h :
  create_unique_hash e = Some h → Py.truthy_str (Some h) = true.
Proof.
  unfold create_unique_hash.
  destruct (message_id e) as [m|]; [|done].
  destruct (request_id e) as [r|]; [|done].
  intros [= <-]. by destruct m.
Qed.

Lemma skip_seen_both w st h current seen :
  Py.truthy_str (Some h) = true →
  h ∈ global_processed_hashes st →
  hash_timestamps st !! h = Some seen →
  skip_duplicate w st (Some h) (Some current) = true
  ↔ Z.abs (current - seen) ≤ hours w.
Proof.
  intros Hh Hin Hts. unfold skip_duplicate.
  rewrite Hh, (bool_decide_eq_true_2 _ Hin), Hts. simpl.
  apply time_diff_within.
Qed.

Lemma skip_seen_missing w st h current :
  Py.truthy_str (Some h) = true →
  h ∈ global_processed_hashes st →
  current = None ∨ hash_timestamps st !! h = None →
  skip_duplicate w st (Some h) current = true.
Proof.
  intros Hh Hin Hmiss. unfold skip_duplicate.
  rewrite Hh, (bool_decide_eq_true_2 _ Hin). simpl.
  destruct Hmiss as [-> | ->]; [|done].
  by destruct (hash_timestamps st !! h).
Qed.

Lemma skip_unseen w st h current :
  h ∉ global_processed_hashes st →
  skip_duplicate w st (Some h) current = false.
Proof.
  intros Hin. unfold skip_duplicate.
  rewrite (bool_decide_eq_false_2 _ Hin). by rewrite andb_false_r.
Qed.

(** What the cleanup does to one tracked entry. *)
Lemma cleanup_lookup w thr st t h' :
  hash_timestamps (cleanup w thr st (Some t)) !! h'
  = if Z.of_nat (size (hash_timestamps st)) >? thr
    then match hash_timestamps st !! h' with
         | Some t' => if decide (t' < t - hours (w * 2)) then None else Some t'
         | None => None
         end
    else hash_timestamps st !! h'.
Proof.
  unfold cleanup. destruct (_ >? _); [|done]. simpl.
  destruct (hash_timestamps st !! h') as [t'|] eqn:Hl.
  - destruct (decide (t' < t - hours (w * 2))) as [Hold|Hnew].
    + apply map_lookup_filter_None. right. intros x Hx. simpl.
      rewrite Hl in Hx. injection Hx as <-. lia.
    + apply map_lookup_filter_Some. by split.
  - apply map_lookup_filter_None. by left.
Qed.

Lemma cleanup_elem w thr st t h' :
  h' ∈ global_processed_hashes (cleanup w thr st (Some t))
  ↔ h' ∈ global_processed_hashes st
    ∧ ¬ (Z.of_nat (size (hash_timestamps st)) > thr
         ∧ ∃ t', hash_timestamps st !! h' = Some t' ∧ t' < t - hours (w * 2)).
Proof.
  unfold cleanup. destruct (_ >? _) eqn:Hsize; simpl.
  - rewrite elem_of_difference, elem_of_dom. unfold is_Some.
    setoid_rewrite map_lookup_filter_Some. simpl.
    split; intros [Hin Hno]; (split; [done|]).
    + intros [_ (t' & Hl & Hlt)]. apply Hno. by exists t'.
    + intros (t' & Hl & Hlt). apply Hno. split; [lia|]. by exists t'.
  - split; [|by intros [? _]]. intros Hin. split; [done|]. lia.
Qed.

(** An admitted entry with a fingerprint and a timestamp leaves its own
    timestamp in the store: the cleanup of the same step cannot evict it. *)
Lemma admit_records w thr st h current :
  0 ≤ w →
  Py.truthy_str (Some h) = true →
  let st' := cleanup w thr (mark_processed st (Some h) (Some current)) (Some current) in
  hash_timestamps st' !! h = Some current ∧ h ∈ global_processed_hashes st'.
Proof.
  intros Hw Hh st'. subst st'. unfold hours, hour. split.
  - rewrite cleanup_lookup. unfold mark_processed. rewrite Hh. simpl.
    rewrite lookup_insert_eq. destruct (_ >? _); [|done].
    unfold hours, hour. case_decide; [lia|done].
  - apply cleanup_elem. unfold mark_processed. rewrite Hh. simpl. split.
    + set_solver.
    + intros [_ (t' & Hl & Hlt)]. rewrite lookup_insert_eq in Hl.
      injection Hl as <-. unfold hours, hour in Hlt. lia.
Qed.

Lemma admit_seen_both w thr st e h current seen :
  0 ≤ w →
  create_unique_hash e = Some h →
  current_timestamp e = Some current →
  h ∈ global_processed_hashes st →
  hash_timestamps st !! h = Some seen →
  let r := admit_entry w thr st e in
  (r.1 = true ↔ hours w < Z.abs (current - seen))
  ∧ (r.1 = true →
     hash_timestamps r.2 !! h = Some current ∧ h ∈ global_processed_hashes r.2)
  ∧ (r.1 = false → r.2 = st).
Proof.
  intros Hw He Ht Hin Hts r. subst r. unfold admit_entry, admit_hash.
  rewrite He, Ht. pose proof (unique_hash_truthy _ _ He) as Hh.
  pose proof (skip_seen_both w st h current seen Hh Hin Hts) as Hskip.
  destruct (skip_duplicate w st (Some h) (Some current)) eqn:Hs; simpl.
  - split; [|done]. split; [done|]. intros Hlt.
    assert (Z.abs (current - seen) ≤ hours w) by by apply Hskip. lia.
  - split; [|split; [|done]].
    + split; [|done]. intros _.
      destruct (decide (Z.abs (current - seen) ≤ hours w)) as [Hle|]; [|lia].
      apply Hskip in Hle. congruence.
    + intros _. by apply admit_records.
Qed.

(** The first occurrence of a fingerprint is admitted and recorded. *)
Lemma admit_first w thr st e h t :
  0 ≤ w →
  create_unique_hash e = Some h →
  current_timestamp e = Some t →
  h ∉ global_processed_hashes st →
  let r := admit_entry w thr st e in
  r.1 = true ∧ hash_timestamps r.2 !! h = Some t ∧ h ∈ global_processed_hashes r.2.
Proof.
  intros Hw He Ht Hin r. subst r. unfold admit_entry, admit_hash.
  rewrite He, Ht, (skip_unseen _ _ _ _ Hin). simpl. split; [done|].
  apply admit_records; [done|]. by eapply unique_hash_truthy.
Qed.

(** The first occurrence of a fingerprint on an entry without a parsed
    timestamp is admitted; only the set remembers it. *)
Lemma admit_first_untimed w thr st e h :
  create_unique_hash e = Some h →
  current_timestamp e = None →
  h ∉ global_processed_hashes st →
  (admit_entry w thr st e).1 = true
  ∧ h ∈ global_processed_hashes (admit_entry w thr st e).2.
Proof.
  intros He Ht Hnew. unfold admit_entry, admit_hash.
  rewrite He, Ht, (skip_unseen _ _ _ _ Hnew). cbn [fst snd]. split; [done|].
  unfold cleanup, mark_processed. rewrite (unique_hash_truthy _ _ He).
  cbn [global_processed_hashes]. set_solver.
Qed.

Lemma admissions_pair w thr st e1 e2 :
  admissions w thr st [e1; e2]
  = [(admit_entry w thr st e1).1;
     (admit_entry w thr (admit_entry w thr st e1).2 e2).1].
Proof.
  simpl. destruct (admit_entry w thr st e1) as [ok1 st1]. simpl.
  by destruct (admit_entry w thr st1 e2).
Qed.

(** C1. With the 24-hour window of the source: when the fingerprint of an
    entry has been seen, and both the stored first-seen timestamp and the
    entry's own timestamp are present, the entry is admitted exactly when
    the two are more than 24 hours apart; an admitted one replaces the
    stored timestamp by its own, a rejected one leaves the store alone.
    Hence, from any store that has not seen the fingerprint, of two
    entries with that fingerprint 1 hour apart only the first is admitted,
    and of two entries 30 hours apart both are. *)
Theorem window_admission :
  (∀ st e h current seen,
     create_unique_hash e = Some h →
     current_timestamp e = Some current →
     h ∈ global_processed_hashes st →
     hash_timestamps st !! h = Some seen →
     let r := admit_entry default_window_hours default_cleanup_threshold st e in
     (r.1 = true ↔ hours 24 < Z.abs (current - seen))
     ∧ (r.1 = true → hash_timestamps r.2 !! h = Some current)
     ∧ (r.1 = false → r.2 = st))
  ∧ (∀ st e1 e2 h t,
       create_unique_hash e1 = Some h →
       create_unique_hash e2 = Some h →
       current_timestamp e1 = Some t →
       h ∉ global_processed_hashes st →
       (current_timestamp e2 = Some (t + hours 1) →
        admissions default_window_hours default_cleanup_threshold st [e1; e2]
        = [true; false])
       ∧ (current_timestamp e2 = Some (t + hours 30) →
          admissions default_window_hours default_cleanup_threshold st [e1; e2]
          = [true; true])).
Proof.
  split.
  - intros st e h current seen He Ht Hin Hts r.
    destruct (admit_seen_both default_window_hours default_cleanup_threshold
                st e h current seen) as (Hiff & Hrec & Hrej); try done.
    split; [exact Hiff|]. split; [|exact Hrej].
    intros Hok. by apply Hrec.
  - intros st e1 e2 h t He1 He2 Ht1 Hnew.
    destruct (admit_first default_window_hours default_cleanup_threshold
                st e1 h t) as (Hok1 & Hts1 & Hin1); try done.
    split; intros Ht2; rewrite admissions_pair, Hok1;
      destruct (admit_seen_both default_window_hours default_cleanup_threshold
                  _ e2 h _ t ltac:(done) He2 Ht2 Hin1 Hts1) as (Hiff & _ & _);
      unfold hours, hour, default_window_hours in Hiff.
    + destruct (admit_entry _ _ _ e2).1 eqn:Hok2; [|done].
      assert (24 * (3600 * 1000000) < Z.abs (t + 1 * (3600 * 1000000) - t))
        by by apply Hiff.
      lia.
    + destruct (admit_entry _ _ _ e2).1 eqn:Hok2; [done|].
      assert (false = true) by (apply Hiff; lia). done.
Qed.

(** Two entries with the fingerprint [m:r], at 0h and 1h, then at 0h and
    30h, from the empty store. *)
Lemma window_admission_witness :
  let ev t := UsageEntry (Some "m") (Some "r") (TsParsed t "2025-06-01")
                None (Cost.Usage 1 1 0 0) Cost.CostAbsent in
  admissions default_window_hours default_cleanup_threshold empty_store
    [ev 0; ev (0 + hours 1)] = [true; false]
  ∧ admissions default_window_hours default_cleanup_threshold empty_store
      [ev 0; ev (0 + hours 30)] = [true; true].
Proof.
  intros ev. split.
  - apply (proj2 window_admission empty_store (ev 0) (ev (0 + hours 1)) "m:r" 0);
      try reflexivity.
    simpl. apply not_elem_of_empty.
  - apply (proj2 window_admission empty_store (ev 0) (ev (0 + hours 30)) "m:r" 0);
      try reflexivity.
    simpl. apply not_elem_of_empty.
Defined.

(** C5. An entry without a fingerprint is admitted from every store. A
    repeat of a seen fingerprint is rejected, the store unchanged, as soon
    as the entry has no parsed timestamp or the store has no first-seen
    timestamp for it, however far apart the two occurrences are. Hence of
    two entries with the same fingerprint and no parsable timestamp only
    the first is admitted. The window and the threshold play no part. *)
Theorem missing_parts (w thr : Z) :
  (∀ st e, create_unique_hash e = None → (admit_entry w thr st e).1 = true)
  ∧ (∀ st e h,
       create_unique_hash e = Some h →
       h ∈ global_processed_hashes st →
       current_timestamp e = None ∨ hash_timestamps st !! h = None →
       admit_entry w thr st e = (false, st))
  ∧ (∀ st e1 e2 h,
       create_unique_hash e1 = Some h →
       create_unique_hash e2 = Some h →
       current_timestamp e1 = None →
       current_timestamp e2 = None →
       h ∉ global_processed_hashes st →
       admissions w thr st [e1; e2] = [true; false]).
Proof.
  split; [|split].
  - intros st e He. unfold admit_entry, admit_hash. by rewrite He.
  - intros st e h He Hin Hmiss. unfold admit_entry, admit_hash. rewrite He.
    rewrite skip_seen_missing; [done|by eapply unique_hash_truthy|done|done].
  - intros st e1 e2 h He1 He2 Ht1 Ht2 Hnew. rewrite admissions_pair.
    destruct (admit_first_untimed w thr st e1 h He1 Ht1 Hnew) as [-> Hin].
    pose proof (unique_hash_truthy _ _ He2) as Hh.
    unfold admit_entry at 1. unfold admit_hash. rewrite He2, Ht2.
    rewrite skip_seen_missing; [done|done|done|by left].
Qed.

(** Two entries with the fingerprint [m:r] whose timestamps do not parse,
    and one entry without a request id. *)
Lemma missing_parts_witness :
  let ev := UsageEntry (Some "m") (Some "r") TsMalformed
              None (Cost.Usage 1 1 0 0) Cost.CostAbsent in
  let anon := UsageEntry (Some "m") None (TsParsed 0 "2025-06-01")
                None (Cost.Usage 1 1 0 0) Cost.CostAbsent in
  admissions default_window_hours default_cleanup_threshold empty_store [ev; ev]
  = [true; false]
  ∧ (admit_entry default_window_hours default_cleanup_threshold
       (Store {["m:r"]} ∅) anon).1 = true
  ∧ admit_entry default_window_hours default_cleanup_threshold
      (Store {["m:r"]} ∅) ev = (false, Store {["m:r"]} ∅).
Proof.
  intros ev anon.
  pose proof (missing_parts default_window_hours default_cleanup_threshold)
    as (Hanon & Hrepeat & Hpair).
  split; [|split].
  - apply (Hpair empty_store ev ev "m:r"); try reflexivity.
    simpl. apply not_elem_of_empty.
  - by apply Hanon.
  - apply (Hrepeat (Store {["m:r"]} ∅) ev "m:r"); [reflexivity| |by left].
    simpl. by apply elem_of_singleton.
Defined.

(** C7. Take an admitted entry with timestamp [t], and the store as it is
    right after the entry is marked. When that store tracks more
    timestamps than the cleanup threshold, the step drops, from the dict
    and from the set, every tracked fingerprint whose timestamp is earlier
    than [t] minus twice the window (48 hours for the window of 24), and
    keeps every other tracked fingerprint with its timestamp. *)
Theorem cleanup_evicts_old
    (w thr : Z) (st : store) (e : usage_entry) (t : Z) (h' : string) (t' : Z) :
  let marked := mark_processed st (create_unique_hash e) (current_timestamp e) in
  let r := admit_entry w thr st e in
  r.1 = true →
  current_timestamp e = Some t →
  Z.of_nat (size (hash_timestamps marked)) > thr →
  hash_timestamps marked !! h' = Some t' →
  (t' < t - hours (2 * w) →
   hash_timestamps r.2 !! h' = None ∧ h' ∉ global_processed_hashes r.2)
  ∧ (t - hours (2 * w) ≤ t' →
     hash_timestamps r.2 !! h' = Some t'
     ∧ (h' ∈ global_processed_hashes marked → h' ∈ global_processed_hashes r.2)).
Proof.
  intros marked r Hok Ht Hsize Hl. subst r. unfold admit_entry, admit_hash in *.
  destruct (skip_duplicate w st _ _); [done|]. simpl. fold marked.
  rewrite Ht, cleanup_lookup, Hl. setoid_rewrite cleanup_elem.
  replace (Z.of_nat (size (hash_timestamps marked)) >? thr) with true by lia.
  replace (w * 2) with (2 * w) by lia.
  split; intros Hage.
  - rewrite decide_True by done. split; [done|].
    intros [_ Hno]. apply Hno. split; [done|]. by exists t'.
  - rewrite decide_False by lia. split; [done|]. intros Hin. split; [done|].
    intros [_ (t'' & Hl' & Hlt)]. rewrite Hl in Hl'. injection Hl' as <-. lia.
Qed.

(** A threshold of 2 and a store tracking [a:b] since hour 0 and [c:d]
    since hour 90; the entry [e:f] arrives at hour 100. *)
Lemma cleanup_evicts_old_witness :
  let st := Store ({["a:b"]} ∪ {["c:d"]})
              (<["a:b" := hours 0]> (<["c:d" := hours 90]> ∅)) in
  let e := UsageEntry (Some "e") (Some "f") (TsParsed (hours 100) "2025-06-05")
             None (Cost.Usage 1 1 0 0) Cost.CostAbsent in
  let r := admit_entry default_window_hours 2 st e in
  (hash_timestamps r.2 !! "a:b" = None ∧ "a:b" ∉ global_processed_hashes r.2)
  ∧ hash_timestamps r.2 !! "c:d" = Some (hours 90).
Proof.
  intros st e r. split.
  - apply (cleanup_evicts_old default_window_hours 2 st e (hours 100) "a:b" (hours 0));
      by vm_compute.
  - apply (cleanup_evicts_old default_window_hours 2 st e (hours 100) "c:d" (hours 90));
      first [by vm_compute | vm_compute; discriminate].
Defined.

End DedupFacts.

(** ** Python idioms: sorting, dicts, sums *)

Module PyFacts.
Import Py.

Section Sorted.
Context {A : Type} (before : A → A → bool).

Lemma insert_sorted_perm x l : insert_sorted before x l ≡ₚ x :: l.
Proof.
  induction l as [|y l IH]; simpl; [done|].
  destruct (before y x); [|done].
  rewrite IH. apply Permutation_swap.
Qed.

Lemma sorted_perm l : sorted before l ≡ₚ l.
Proof.
  induction l as [|x l IH]; simpl; [done|].
  by rewrite insert_sorted_perm, IH.
Qed.

Lemma elem_of_sorted x l : x ∈ sorted before l ↔ x ∈ l.
Proof. by rewrite sorted_perm. Qed.

Lemma length_sorted l : length (sorted before l) = length l.
Proof. by rewrite sorted_perm. Qed.

(** The output is ordered by any transitive relation [R] that [before]
    decides in the sense below. *)
Context (R : relation A) `{!Transitive R}.
Context (before_R : ∀ y x, before y x = true → R y x).
Context (not_before_R : ∀ y x, before y x = false → R x y).

Lemma insert_sorted_strongly x l :
  StronglySorted R l → StronglySorted R (insert_sorted before x l).
Proof.
  induction 1 as [|y l Hl IH Hy]; simpl.
  - repeat constructor.
  - destruct (before y x) eqn:Hb.
    + constructor; [done|].
      rewrite insert_sorted_perm. constructor; [by apply before_R|done].
    + constructor; [by constructor|].
      constructor; [by apply not_before_R|].
      eapply Forall_impl; [exact Hy|]. intros z Hz. simpl in Hz.
      transitivity y; [by apply not_before_R|done].
Qed.

Lemma sorted_strongly l : StronglySorted R (sorted before l).
Proof.
  induction l as [|x l IH]; simpl; [constructor|].
  by apply insert_sorted_strongly.
Qed.
End Sorted.

(** Sorting two arrangements of the same elements gives the same list when
    the order tells any two of the elements apart. *)
Lemma sorted_unique {A} (before : A → A → bool) (R : relation A)
    `{!Transitive R} (l1 l2 : list A) :
  (∀ y x, before y x = true → R y x) →
  (∀ y x, before y x = false → R x y) →
  (∀ x y, x ∈ l1 → y ∈ l1 → R x y → R y x → x = y) →
  l1 ≡ₚ l2 →
  sorted before l1 = sorted before l2.
Proof.
  intros H1 H2 Hanti Hperm.
  apply (StronglySorted_unique_strong R).
  - intros x y Hx Hy. apply Hanti.
    + by apply elem_of_sorted in Hx.
    + apply elem_of_sorted in Hy. by rewrite Hperm.
  - by apply sorted_strongly.
  - by apply sorted_strongly.
  - by rewrite !sorted_perm.
Qed.

Section Dict.
Context {K V : Type} `{EqDecision K}.
Implicit Types (d : list (K * V)) (k : K).

Lemma dict_get_None k d : dict_get k d = None ↔ k ∉ d.*1.
Proof.
  induction d as [|[k' v] d IH]; simpl.
  - split; [intros _; apply not_elem_of_nil|done].
  - rewrite not_elem_of_cons, <- IH. case_decide.
    + split; [done|]. by intros [? _].
    + split; [by intros ?; split|by intros [_ ?]].
Qed.

Lemma dict_get_Some k v d : dict_get k d = Some v → (k, v) ∈ d.
Proof.
  induction d as [|[k' v'] d IH]; simpl; [done|].
  case_decide.
  - intros [= ->]. subst. by left.
  - intros ?. right. by apply IH.
Qed.

Lemma dict_get_elem_of k v d : NoDup d.*1 → (k, v) ∈ d → dict_get k d = Some v.
Proof.
  induction d as [|[k' v'] d IH]; simpl.
  - intros _ Hin. by apply elem_of_nil in Hin.
  - intros Hnd Hin. apply NoDup_cons in Hnd as [Hk' Hnd].
    apply elem_of_cons in Hin as [[= -> ->]|Hin].
    + by rewrite decide_True.
    + rewrite decide_False; [by apply IH|].
      intros ->. apply Hk'. apply list_elem_of_fmap. by exists (k', v).
Qed.

Lemma dict_update_keys k f dflt d :
  (dict_update k f dflt d).*1
  = if bool_decide (k ∈ d.*1) then d.*1 else d.*1 ++ [k].
Proof.
  induction d as [|[k' v] d IH].
  - cbn [dict_update fmap list_fmap fst app].
    by rewrite bool_decide_eq_false_2 by apply not_elem_of_nil.
  - cbn [dict_update].
    destruct (decide (k = k')) as [->|Hne]; cbn [fmap list_fmap fst app].
    + rewrite bool_decide_eq_true_2; [done|by left].
    + fold (fmap (M:=list) (@fst K V)). rewrite IH.
      destruct (decide (k ∈ d.*1)) as [Hin|Hin].
      * rewrite !bool_decide_eq_true_2; [done|by right|done].
      * rewrite !bool_decide_eq_false_2; [done| |done].
        rewrite not_elem_of_cons. done.
Qed.

Lemma dict_update_NoDup k f dflt d :
  NoDup d.*1 → NoDup (dict_update k f dflt d).*1.
Proof.
  intros Hnd. rewrite dict_update_keys. case_bool_decide as Hk; [done|].
  apply NoDup_app. split; [done|]. split; [|apply NoDup_singleton].
  intros x Hx Hx'. apply list_elem_of_singleton in Hx'. by subst.
Qed.

Lemma dict_get_update k k' f dflt d :
  dict_get k' (dict_update k f dflt d)
  = if decide (k' = k) then Some (f (default dflt (dict_get k d)))
    else dict_get k' d.
Proof.
  induction d as [|[k0 v] d IH]; simpl.
  - by repeat case_decide; subst.
  - destruct (decide (k = k0)) as [->|Hne]; simpl.
    + by repeat case_decide; subst.
    + rewrite IH. repeat case_decide; subst; done.
Qed.
End Dict.

Lemma sum_int_foldl acc l : foldl Z.add acc l = acc + sum_int l.
Proof.
  unfold sum_int. revert acc. induction l as [|x l IH] using rev_ind; intros acc.
  - simpl. lia.
  - rewrite !foldl_app. simpl. rewrite IH. lia.
Qed.

Lemma sum_int_cons x l : sum_int (x :: l) = x + sum_int l.
Proof. unfold sum_int at 1. simpl. by rewrite sum_int_foldl. Qed.

Lemma sum_int_perm l1 l2 : l1 ≡ₚ l2 → sum_int l1 = sum_int l2.
Proof.
  induction 1 as [|x l1 l2 _ IH|x y l|l1 l2 l3 _ IH1 _ IH2].
  - done.
  - by rewrite !sum_int_cons, IH.
  - rewrite !sum_int_cons. lia.
  - congruence.
Qed.

Lemma sum_num_snoc l x : sum_num (l ++ [x]) = (sum_num l + x)%Q.
Proof. unfold sum_num. by rewrite foldl_app. Qed.

End PyFacts.

(** ** Live monitor *)

Module LiveFacts.
Import Live.

(** *** The per-minute dict of one scanned file *)

Lemma scan_tokens_by_minute pd cutoff s0 ls s :
  scan_lines pd cutoff s0 ls = Some s →
  s_tokens_by_minute s = bucket (counted cutoff ls) (s_tokens_by_minute s0).
Proof.
  revert s0. induction ls as [|l ls IH]; intros s0; simpl.
  - by intros [= ->].
  - destruct l as [| |ts msg]; [by apply IH..|].
    destruct ts as [| |t]; [by destruct msg; apply IH|done|].
    destruct (t <? cutoff) eqn:Ht.
    + intros Hs. rewrite (IH _ Hs). by destruct msg.
    + intros Hs. rewrite (IH _ Hs). by destruct msg.
Qed.

Lemma bucket_snoc evs ev d :
  bucket (evs ++ [ev]) d
  = Py.dict_update (minute_key ev.1) (λ t, t + ev.2) 0 (bucket evs d).
Proof. unfold bucket. by rewrite foldl_app. Qed.

Lemma bucket_NoDup evs d : NoDup d.*1 → NoDup (bucket evs d).*1.
Proof.
  intros Hd. induction evs as [|ev evs IH] using rev_ind; [done|].
  rewrite bucket_snoc. by apply PyFacts.dict_update_NoDup.
Qed.

Lemma bucket_keys evs d k :
  k ∈ (bucket evs d).*1 ↔ k ∈ d.*1 ∨ ∃ t, t ∈ evs.*1 ∧ minute_key t = k.
Proof.
  induction evs as [|ev evs IH] using rev_ind.
  - simpl. split; [by left|]. intros [?|(t & Ht & _)]; [done|].
    by apply elem_of_nil in Ht.
  - rewrite bucket_snoc, PyFacts.dict_update_keys, fmap_app.
    setoid_rewrite elem_of_app. simpl. setoid_rewrite list_elem_of_singleton.
    case_bool_decide as Hk.
    + rewrite IH. split.
      * intros [?|(t & Ht & Hm)]; [by left|]. right. exists t. by split; [left|].
      * intros [?|(t & [Ht| ->] & Hm)]; [by left| |].
        -- right. by exists t.
        -- subst k. by apply IH.
    + rewrite elem_of_app, list_elem_of_singleton, IH. split.
      * intros [[?|(t & Ht & Hm)]| ->]; [by left| |].
        -- right. exists t. by split; [left|].
        -- right. exists ev.1. by split; [right|].
      * intros [?|(t & [Ht| ->] & Hm)]; [by left; left| |].
        -- left. right. by exists t.
        -- by right.
Qed.

Lemma sum_int_snoc l x : Py.sum_int (l ++ [x]) = Py.sum_int l + x.
Proof. unfold Py.sum_int. by rewrite foldl_app. Qed.

Lemma dict_update_sum k x (d : list (Z * Z)) :
  Py.sum_int (Py.dict_update k (λ t, t + x) 0 d).*2 = Py.sum_int d.*2 + x.
Proof.
  induction d as [|[k' v] d IH].
  - unfold Py.sum_int. simpl. lia.
  - cbn [Py.dict_update].
    destruct (decide (k = k')); rewrite !fmap_cons, !PyFacts.sum_int_cons;
      cbn [snd]; [lia|].
    rewrite IH. lia.
Qed.

Lemma bucket_sum evs d :
  Py.sum_int (bucket evs d).*2 = Py.sum_int d.*2 + Py.sum_int evs.*2.
Proof.
  induction evs as [|ev evs IH] using rev_ind.
  - simpl. unfold Py.sum_int at 3. simpl. lia.
  - rewrite bucket_snoc, dict_update_sum, IH, fmap_app.
    change ([ev].*2) with [ev.2]. rewrite sum_int_snoc. lia.
Qed.

(** Reading the dict back through its own keys gives its values. *)
Lemma dict_values_by_key (d : list (Z * Z)) :
  NoDup d.*1 → (λ m, default 0 (Py.dict_get m d)) <$> d.*1 = d.*2.
Proof.
  induction d as [|[k v] d IH]; [done|].
  rewrite !fmap_cons. cbn [fst snd]. intros Hnd.
  apply NoDup_cons in Hnd as [Hk Hnd]. f_equal.
  - cbn [Py.dict_get]. by rewrite decide_True.
  - rewrite <- (IH Hnd). apply Forall_fmap_ext_1, Forall_forall.
    intros m Hm. cbn [Py.dict_get]. rewrite decide_False; [done|]. by intros ->.
Qed.

Lemma recent_tokens_total (d : list (Z * Z)) (keys : list Z) :
  NoDup d.*1 → keys ≡ₚ d.*1 →
  Py.sum_int ((λ m, default 0 (Py.dict_get m d)) <$> keys) = Py.sum_int d.*2.
Proof.
  intros Hnd Hperm. rewrite <- (dict_values_by_key d Hnd).
  apply PyFacts.sum_int_perm. by rewrite Hperm.
Qed.

(** *** The sorted minutes *)

Lemma sorted_minutes_strongly keys : StronglySorted Z.le (Py.sorted Z.ltb keys).
Proof. apply PyFacts.sorted_strongly; [apply _|intros y x; lia..]. Qed.

Lemma head_least (l : list Z) k0 :
  StronglySorted Z.le l → k0 ∈ l → (∀ k, k ∈ l → k0 ≤ k) → head l = Some k0.
Proof.
  intros Hs Hin Hleast. destruct Hs as [|a l Hl Ha]; [by apply elem_of_nil in Hin|].
  simpl. f_equal. apply elem_of_cons in Hin as [->|Hin]; [done|].
  rewrite Forall_forall in Ha. specialize (Ha _ Hin).
  specialize (Hleast a ltac:(by left)). lia.
Qed.

Lemma last_greatest (l : list Z) k1 :
  StronglySorted Z.le l → k1 ∈ l → (∀ k, k ∈ l → k ≤ k1) → last l = Some k1.
Proof.
  induction 1 as [|a l Hl IH Ha]; intros Hin Hmax; [by apply elem_of_nil in Hin|].
  destruct l as [|b l]; simpl.
  - apply elem_of_cons in Hin as [->|Hin]; [done|by apply elem_of_nil in Hin].
  - change (last (b :: l) = Some k1). apply IH.
    + apply elem_of_cons in Hin as [->|Hin]; [|done].
      rewrite Forall_forall in Ha. specialize (Ha b ltac:(by left)).
      specialize (Hmax b ltac:(by right; left)).
      replace a with b by lia. by left.
    + intros k Hk. apply Hmax. by right.
Qed.

Lemma minute_key_mono t1 t2 : t1 ≤ t2 → minute_key t1 ≤ minute_key t2.
Proof. intros. unfold minute_key, minute. by apply Z.div_le_mono. Qed.

(** The token rate of a scan, from the entries it counted. *)
Lemma burn_rates_span s evs earliest latest :
  s_tokens_by_minute s = bucket evs [] →
  earliest ∈ evs.*1 → latest ∈ evs.*1 →
  (∀ t, t ∈ evs.*1 → earliest ≤ t ≤ latest) →
  (minute_key earliest ≠ minute_key latest →
   (burn_rates s).1
   == inject_Z (Py.sum_int evs.*2)
      / inject_Z (minute_key latest - minute_key earliest + 1))
  ∧ (minute_key earliest = minute_key latest →
     (burn_rates s).1 == inject_Z (Py.sum_int evs.*2)).
Proof.
  intros Hd Hearly Hlate Hbounds. unfold burn_rates. rewrite Hd.
  set (d := bucket evs []).
  assert (Hnd : NoDup d.*1) by (apply bucket_NoDup; constructor).
  assert (Hkeys : ∀ k, k ∈ d.*1 ↔ ∃ t, t ∈ evs.*1 ∧ minute_key t = k).
  { intros k. unfold d. rewrite bucket_keys. split; [|by right].
    intros [Hk|?]; [by apply elem_of_nil in Hk|done]. }
  set (keys := Py.sorted Z.ltb d.*1).
  assert (Hperm : keys ≡ₚ d.*1) by apply PyFacts.sorted_perm.
  assert (Hsorted : StronglySorted Z.le keys) by apply sorted_minutes_strongly.
  assert (Hmin : minute_key earliest ∈ keys).
  { rewrite Hperm. apply Hkeys. by exists earliest. }
  assert (Hmax : minute_key latest ∈ keys).
  { rewrite Hperm. apply Hkeys. by exists latest. }
  assert (Hleast : ∀ k, k ∈ keys → minute_key earliest ≤ k ≤ minute_key latest).
  { intros k Hk. rewrite Hperm in Hk. apply Hkeys in Hk as (t & Ht & <-).
    split; apply minute_key_mono; by apply Hbounds. }
  assert (Htotal : Py.sum_int ((λ m, default 0 (Py.dict_get m d)) <$> keys)
                   = Py.sum_int evs.*2).
  { rewrite (recent_tokens_total d keys Hnd Hperm). unfold d.
    rewrite bucket_sum. unfold Py.sum_int at 1. simpl. lia. }
  rewrite Htotal.
  assert (Hlen : length d = length keys).
  { unfold keys. by rewrite PyFacts.length_sorted, length_fmap. }
  rewrite Hlen.
  assert (Hnd' : NoDup keys) by by rewrite Hperm.
  pose proof (head_least keys _ Hsorted Hmin (λ k Hk, proj1 (Hleast k Hk))) as Hhead.
  pose proof (last_greatest keys _ Hsorted Hmax (λ k Hk, proj2 (Hleast k Hk))) as Hlast.
  destruct keys as [|a [|b keys']].
  - by apply elem_of_nil in Hmin.
  - simpl. apply list_elem_of_singleton in Hmin, Hmax. split; [congruence|].
    intros _. reflexivity.
  - rewrite Hhead, Hlast. cbn [length Nat.leb default fst]. split.
    + intros _. rewrite inject_Z_plus. reflexivity.
    + intros Heq. exfalso. injection Hhead as Ha.
      apply NoDup_cons in Hnd' as [Hab _].
      pose proof (Hleast b ltac:(by right; left)).
      apply Hab. replace b with a by lia. by left.
Qed.

(** C2, as the code has it. For a session that the live scan keeps, take
    the usage entries it counted, the earliest and the latest of their
    timestamps, and the minutes of the clock in which these two fall. When
    the two minutes differ, the token burn rate is the total of the
    counted tokens divided by the number of clock minutes from the first
    to the last, both included; when they coincide, it is the total
    itself. *)
Theorem burn_rate_span
    (pd : gmap string Cost.pricing) (f : recent_file) (ls : list line)
    (sd : session_data) (earliest latest : Z) :
  lines f = Some ls →
  scan_file pd f = Some sd →
  let evs := counted (now_utc f - minutes 2) ls in
  earliest ∈ evs.*1 → latest ∈ evs.*1 →
  (∀ t, t ∈ evs.*1 → earliest ≤ t ≤ latest) →
  (minute_key earliest ≠ minute_key latest →
   realBurnRateTokens sd
   == inject_Z (Py.sum_int evs.*2)
      / inject_Z (minute_key latest - minute_key earliest + 1))
  ∧ (minute_key earliest = minute_key latest →
     realBurnRateTokens sd == inject_Z (Py.sum_int evs.*2)).
Proof.
  intros Hls Hsd evs Hearly Hlate Hbounds. unfold scan_file in Hsd.
  rewrite Hls in Hsd.
  destruct (scan_lines pd _ empty_scan ls) as [s|] eqn:Hscan; [|done].
  destruct (_ || _); [|done].
  pose proof (scan_tokens_by_minute _ _ _ _ _ Hscan) as Hd.
  pose proof (burn_rates_span s evs earliest latest Hd Hearly Hlate Hbounds) as Hrate.
  destruct (burn_rates s) as [rate_tokens rate_cost].
  by injection Hsd as <-.
Qed.

(** The session of the specification's example: 100 tokens at [t = 0] and
    400 tokens five minutes later, scanned when the clock shows minute 1. *)
Lemma burn_rate_span_witness :
  let entry t n :=
    Json (Parsed t) (Some (UsagePart (Cost.Usage n 0 0 0) None Cost.CostAbsent)) in
  let f := RecentFile "-home-u-project" 0 (minutes 1)
             (Some [entry 0 100; entry (minutes 5) 400]) in
  ∃ sd, scan_file ∅ f = Some sd
        ∧ realBurnRateTokens sd == inject_Z 500 / inject_Z 6.
Proof.
  intros entry f.
  destruct (scan_file ∅ f) as [sd|] eqn:Hsd; [|by vm_compute in Hsd].
  exists sd. split; [done|].
  apply (burn_rate_span ∅ f _ sd 0 (minutes 5) eq_refl Hsd).
  - by left.
  - by right; left.
  - intros t Ht. vm_compute in Ht.
    apply elem_of_cons in Ht as [->|Ht]; [done|].
    apply list_elem_of_singleton in Ht as ->. done.
  - done.
Defined.

(** The same session against the figure of the specification: the rate is
    500/6, not 500/5 = 100. *)
Lemma burn_rate_example_not_100 :
  let entry t n :=
    Json (Parsed t) (Some (UsagePart (Cost.Usage n 0 0 0) None Cost.CostAbsent)) in
  let f := RecentFile "-home-u-project" 0 (minutes 1)
             (Some [entry 0 100; entry (minutes 5) 400]) in
  ∃ sd, scan_file ∅ f = Some sd
        ∧ realBurnRateTokens sd == 500 # 6
        ∧ ¬ realBurnRateTokens sd == inject_Z 500 / inject_Z 5
        ∧ ¬ realBurnRateTokens sd == 100.
Proof.
  intros entry f. eexists. split; [by vm_compute|]. by vm_compute.
Qed.

Lemma reported_tokens_sum c :
  reported_tokens c
  = inputTokens c + outputTokens c
    + cacheCreationInputTokens c + cacheReadInputTokens c.
Proof. unfold reported_tokens, Py.sum_int. simpl. lia. Qed.

(** C9. Every synthesized block aggregates sessions whose tokens total some
    [T > 0]; it reports [T // 2] input tokens, [T // 2] output tokens and
    no cache tokens. The four reported categories therefore add up to
    [T - T mod 2]: one token short of [T] when [T] is odd. *)
Theorem synthetic_split
    (current_sessions : list (string * session_data)) (b : synthetic_block) :
  synthesize current_sessions = Some b →
  let T := sum_tokens current_sessions in
  0 < T
  ∧ inputTokens (tokenCounts b) = T `div` 2
  ∧ outputTokens (tokenCounts b) = T `div` 2
  ∧ cacheCreationInputTokens (tokenCounts b) = 0
  ∧ cacheReadInputTokens (tokenCounts b) = 0
  ∧ reported_tokens (tokenCounts b) = T - T `mod` 2
  ∧ (Z.odd T = true → reported_tokens (tokenCounts b) = T - 1).
Proof.
  intros Hb T. unfold synthesize in Hb.
  destruct current_sessions as [|s0 rest]; [done|].
  destruct (latest_activity (s0 :: rest)) as [latest|]; [|done].
  fold T in Hb. destruct (0 <? T) eqn:HT; [|done]. apply Z.ltb_lt in HT.
  injection Hb as <-. clearbody T. rewrite reported_tokens_sum. cbn.
  pose proof (Z.div_mod T 2 ltac:(done)) as Hdm.
  split; [lia|]. do 4 (split; [done|]). split; [lia|].
  intros Hodd. apply Z.odd_spec in Hodd as [k Hk].
  pose proof (Z.mod_pos_bound T 2 ltac:(done)). lia.
Qed.

(** Two sessions active in the same minute, 3 and 4 tokens. *)
Lemma synthetic_split_witness :
  let file name t n :=
    RecentFile name t t
      (Some [Json (Parsed t)
               (Some (UsagePart (Cost.Usage n 0 0 0) None Cost.CostAbsent))]) in
  let current_sessions :=
    get_current_session_data ∅ [file "-home-u-a" 1000 3; file "-home-u-b" 2000 4] in
  ∃ b, synthesize current_sessions = Some b
       ∧ sum_tokens current_sessions = 7
       ∧ inputTokens (tokenCounts b) = 3
       ∧ outputTokens (tokenCounts b) = 3
       ∧ reported_tokens (tokenCounts b) = 7 - 1.
Proof.
  intros file current_sessions.
  destruct (synthesize current_sessions) as [b|] eqn:Hb; [|by vm_compute in Hb].
  exists b. split; [done|]. split; [by vm_compute|].
  destruct (synthetic_split current_sessions b Hb) as (_ & Hi & Ho & _ & _ & _ & Hodd).
  split; [exact Hi|]. split; [exact Ho|]. by apply Hodd.
Defined.

End LiveFacts.

(** ** Daily and monthly views *)

Module ViewsFacts.
Import Monthly.

Lemma slice_from_subseteq {A} (l : list A) k : Py.slice_from l k ⊆ l.
Proof. unfold Py.slice_from. destruct (k <? 0); apply subseteq_drop. Qed.

Lemma slice_to_subseteq {A} (l : list A) k : Py.slice_to l k ⊆ l.
Proof. unfold Py.slice_to. destruct (k <? 0); apply subseteq_take. Qed.

Lemma monthly_groups_snoc l d :
  monthly_groups (l ++ [d])
  = Py.dict_update (month_of d) (add_day d) new_group (monthly_groups l).
Proof. unfold monthly_groups. by rewrite foldl_app. Qed.

Lemma monthly_groups_NoDup l : NoDup (monthly_groups l).*1.
Proof.
  induction l as [|d l IH] using rev_ind; [constructor|].
  rewrite monthly_groups_snoc. by apply PyFacts.dict_update_NoDup.
Qed.

(** The group of a month holds the left-to-right sum of its days; a month
    without a group has no day. *)
Lemma monthly_group_total M l :
  match Py.dict_get M (monthly_groups l) with
  | Some g =>
      month g = M
      ∧ totalCost g
        = Py.sum_num (Daily.day_totalCost <$> filter (λ d, month_of d = M) l)
  | None => filter (λ d, month_of d = M) l = []
  end.
Proof.
  induction l as [|d l IH] using rev_ind; [done|].
  rewrite monthly_groups_snoc, PyFacts.dict_get_update, filter_app.
  rewrite filter_cons, filter_nil.
  destruct (decide (M = month_of d)) as [->|Hne].
  - rewrite decide_True by done. rewrite fmap_app.
    change (Daily.day_totalCost <$> [d]) with [Daily.day_totalCost d].
    rewrite PyFacts.sum_num_snoc. split; [done|].
    destruct (Py.dict_get (month_of d) (monthly_groups l)) as [g|].
    + destruct IH as [_ <-]. reflexivity.
    + rewrite IH. reflexivity.
  - rewrite decide_False by done. by rewrite app_nil_r.
Qed.

(** C3. Every month group that the monthly view shows carries, as its
    [totalCost], the sum of the [totalCost] of the days of the daily view
    whose date starts with the group's month (its first 7 characters),
    added in the order of the daily view. The daily view meant here is the
    one the monthly view is derived from: [process_daily_with_projects] at
    its default limit, over the same session list. Conversely every month
    of a day of that view has such a group before the rollup is cut to the
    requested number of months. *)
Theorem monthly_matches_daily
    (data : list Aggregation.session_result) (limit : option Z) :
  let daily_data := Daily.process_daily_with_projects data None in
  (∀ g, g ∈ display_monthly data limit →
        totalCost g
        = Py.sum_num
            (Daily.day_totalCost
               <$> filter (λ d, Py.str_take 7 (Daily.date d) = month g) daily_data))
  ∧ (∀ d, d ∈ daily_data →
          ∃ g, g ∈ (monthly_groups daily_data).*2
               ∧ month g = Py.str_take 7 (Daily.date d)
               ∧ totalCost g
                 = Py.sum_num
                     (Daily.day_totalCost
                        <$> filter (λ d', Py.str_take 7 (Daily.date d') = month g)
                              daily_data)).
Proof.
  intros daily_data. split.
  - intros g Hg. unfold display_monthly, process_monthly_data in Hg.
    fold daily_data in Hg. apply slice_from_subseteq in Hg.
    apply PyFacts.elem_of_sorted in Hg.
    apply list_elem_of_fmap in Hg as ([M g'] & -> & Hin). simpl.
    apply PyFacts.dict_get_elem_of in Hin; [|apply monthly_groups_NoDup].
    pose proof (monthly_group_total M daily_data) as Htot.
    rewrite Hin in Htot. destruct Htot as [-> Htot]. exact Htot.
  - intros d Hd. pose proof (monthly_group_total (month_of d) daily_data) as Htot.
    destruct (Py.dict_get (month_of d) (monthly_groups daily_data)) as [g|] eqn:Hg.
    + destruct Htot as [Hm Htot]. exists g. split; [|split; [done|]].
      * apply list_elem_of_fmap. exists (month_of d, g).
        split; [done|]. by apply PyFacts.dict_get_Some.
      * rewrite Hm. exact Htot.
    + exfalso. eapply (filter_nil_not_elem_of _ _ d Htot); [|done]. done.
Qed.

(** Four dated sessions over two months and one undated session. *)
Lemma monthly_matches_daily_witness :
  let sess id day c :=
    Aggregation.SessionResult id (Aggregation.project_name id)
      10 20 0 0 c day [] in
  let data := [sess "-home-u-alpha" "2025-05-30" (3 # 2);
               sess "-home-u-beta" "2025-06-01" (1 # 4);
               sess "-home-u-alpha" "2025-06-02" 2%Q;
               sess "-home-u-gamma" "2025-06-01" (1 # 2);
               sess "-x" "1970-01-01" 1%Q] in
  let june := MonthGroup "2025-06" (22 # 8) 3 in
  june ∈ display_monthly data None
  ∧ totalCost june = Py.sum_num [2%Q; 6 # 8].
Proof.
  intros sess data june.
  assert (Hin : june ∈ display_monthly data None).
  { vm_compute. right. by left. }
  split; [exact Hin|].
  rewrite (proj1 (monthly_matches_daily data None) june Hin).
  by vm_compute.
Defined.

End ViewsFacts.

(** ** Aggregation store *)

Module AggregationFacts.
Import Aggregation.

#[local] Instance key_le_trans : Transitive key_le.
Proof. intros a b c. unfold key_le. lia. Qed.

Lemma key_ltb_le a b : key_ltb a b = true → key_le a b.
Proof. unfold key_ltb, key_le. lia. Qed.

Lemma key_ltb_ge a b : key_ltb a b = false → key_le b a.
Proof. unfold key_ltb, key_le. lia. Qed.

Lemma key_le_antisym (a b : Z * Z) : key_le a b → key_le b a → a = b.
Proof. destruct a, b. unfold key_le. simpl. intros. f_equal; lia. Qed.

(** Distinct keys tell the elements of a list apart. *)
Lemma NoDup_fmap_inj {A B} (f : A → B) (l : list A) x y :
  NoDup (f <$> l) → x ∈ l → y ∈ l → f x = f y → x = y.
Proof.
  induction l as [|a l IH]; [by intros _ Hx; apply elem_of_nil in Hx|].
  rewrite fmap_cons, NoDup_cons, list_elem_of_fmap.
  intros [Ha Hnd] Hx Hy Hf.
  apply elem_of_cons in Hx as [->|Hx], Hy as [->|Hy]; [done| | |by apply IH].
  - exfalso. apply Ha. by exists y.
  - exfalso. apply Ha. by exists x.
Qed.

(** Two arrangements of files with pairwise distinct sort keys are sorted
    into the same list. *)
Lemma sort_files_unique (l1 l2 : list log_file) :
  NoDup (sort_key (length l1) <$> l1) → l1 ≡ₚ l2 →
  sort_all_files_by_timestamp l1 = sort_all_files_by_timestamp l2.
Proof.
  intros Hnd Hperm. unfold sort_all_files_by_timestamp.
  rewrite <- (Permutation_length Hperm). set (n := length l1) in *.
  set (R := λ a b : log_file, key_le (sort_key n a) (sort_key n b)).
  assert (Transitive R) by (intros a b c; apply key_le_trans).
  apply (PyFacts.sorted_unique _ R); [| | |done].
  - intros y x. apply key_ltb_le.
  - intros y x. apply key_ltb_ge.
  - intros x y Hx Hy Hxy Hyx.
    apply (NoDup_fmap_inj (sort_key n) l1); [done..|].
    by apply key_le_antisym.
Qed.

(** C8, as the code has it. When no two files of the corpus have the same
    sort key (modification time, then earliest content timestamp or
    modification time again), every arrangement in which discovery may
    list the files yields the same session list, hence the same totals:
    the aggregation is then a function of the corpus alone. *)
Theorem aggregate_order_independent
    (mode : Cost.cost_mode) (pricing_data : gmap string Cost.pricing)
    (opts : options) (corpus : list log_file) :
  NoDup (sort_key (length corpus) <$> corpus) →
  (∀ run1 run2, run1 ≡ₚ corpus → run2 ≡ₚ corpus →
     aggregate mode pricing_data opts run1 = aggregate mode pricing_data opts run2)
  ∧ order_independent mode pricing_data opts corpus.
Proof.
  intros Hnd.
  assert (Hsame : ∀ run1 run2, run1 ≡ₚ corpus → run2 ≡ₚ corpus →
            aggregate mode pricing_data opts run1
            = aggregate mode pricing_data opts run2).
  { intros run1 run2 H1 H2. unfold aggregate. f_equal.
    apply sort_files_unique; [|by rewrite H1, H2].
    by rewrite (Permutation_length H1), H1. }
  split; [exact Hsame|].
  intros run1 run2 H1 H2. by rewrite (Hsame run1 run2 H1 H2).
Qed.

(** Two files modified at different times, listed in both orders. *)
Lemma aggregate_order_independent_witness :
  let e := Log.UsageEntry (Some "m") (Some "r") (Log.TsParsed 5 "2025-06-01")
             None (Cost.Usage 10 5 0 0) Cost.CostAbsent in
  let fa := LogFile "/home/u/.claude/projects/-home-u-a/1.jsonl"
              (SessionDir "/home/u/.claude/projects" "-home-u-a")
              (Some 100) (Some [Log.LUsage e]) in
  let fb := LogFile "/home/u/.claude/vms/v1/projects/-home-u-b/1.jsonl"
              (SessionDir "/home/u/.claude/vms/v1/projects" "-home-u-b")
              (Some 200) (Some [Log.LUsage e]) in
  let opts := Options Daily None in
  aggregate Cost.Auto Cost.fallback_pricing opts [fa; fb]
  = aggregate Cost.Auto Cost.fallback_pricing opts [fb; fa].
Proof.
  intros e fa fb opts.
  apply (aggregate_order_independent Cost.Auto Cost.fallback_pricing opts [fa; fb]).
  - vm_compute. repeat constructor; rewrite ?elem_of_cons, ?elem_of_nil;
      intros H; decompose [or] H; done.
  - done.
  - apply Permutation_swap.
Defined.

(** The claim of C8 as stated fails: two replicas of one log, modified at
    the same time, in two session directories. The run that lists the
    first replica first bills its session, the other run bills the other
    session. *)
Lemma order_dependent_totals :
  let e := Log.UsageEntry (Some "m") (Some "r") (Log.TsParsed 5 "2025-06-01")
             None (Cost.Usage 10 5 0 0) Cost.CostAbsent in
  let fa := LogFile "/home/u/.claude/projects/-home-u-a/1.jsonl"
              (SessionDir "/home/u/.claude/projects" "-home-u-a")
              (Some 100) (Some [Log.LUsage e]) in
  let fb := LogFile "/home/u/.claude/vms/v1/projects/-home-u-b/1.jsonl"
              (SessionDir "/home/u/.claude/vms/v1/projects" "-home-u-b")
              (Some 100) (Some [Log.LUsage e]) in
  let opts := Options Daily None in
  ¬ order_independent Cost.Auto Cost.fallback_pricing opts [fa; fb].
Proof.
  intros e fa fb opts Hind.
  specialize (Hind [fa; fb] [fb; fa] ltac:(done) ltac:(apply Permutation_swap)).
  assert (Hin : ("-home-u-a", 0%Q, 10, 5, 0, 0)
                ∈ session_totals
                    <$> aggregate Cost.Auto Cost.fallback_pricing opts [fa; fb]).
  { vm_compute. by left. }
  rewrite Hind in Hin. vm_compute in Hin.
  apply list_elem_of_singleton in Hin. discriminate.
Qed.

Lemma is_empty_session_spec s :
  is_empty_session s = true
  ↔ total_cost s == 0 ∧ input_tokens s = 0 ∧ output_tokens s = 0.
Proof.
  unfold is_empty_session. rewrite !andb_true_iff, Qeq_bool_iff, !Z.eqb_eq.
  tauto.
Qed.

Lemma elem_of_final_sessions st r :
  r ∈ final_sessions st
  ↔ ∃ ds, ds ∈ sessions_by_dir st ∧ r = to_result ds
          ∧ is_empty_session ds.2 = false.
Proof.
  unfold final_sessions. rewrite list_elem_of_fmap. split.
  - intros (ds & -> & Hds). apply list_elem_of_filter in Hds as [Hk Hin].
    by exists ds.
  - intros (ds & Hin & -> & Hk). exists ds. split; [done|].
    by apply list_elem_of_filter.
Qed.

(** C10. The returned list is made of the accumulated sessions, in their
    order, without those whose total cost, input tokens and output tokens
    are all zero: such a session contributes no element, every other
    session contributes its element, and nothing else is returned. So a
    session whose totals are nonzero only in the two cache categories is
    dropped, although its admitted entries carried tokens. *)
Theorem empty_sessions_dropped
    (mode : Cost.cost_mode) (pricing_data : gmap string Cost.pricing)
    (opts : options) (files : list log_file) :
  let st := process_files mode pricing_data opts initial_state files in
  let result := process_files_with_global_dedup mode pricing_data opts files in
  let all_zero s := total_cost s == 0 ∧ input_tokens s = 0 ∧ output_tokens s = 0 in
  (∀ ds, ds ∈ sessions_by_dir st → all_zero ds.2 → to_result ds ∉ result)
  ∧ (∀ ds, ds ∈ sessions_by_dir st → ¬ all_zero ds.2 → to_result ds ∈ result)
  ∧ (∀ r, r ∈ result →
          ∃ ds, ds ∈ sessions_by_dir st ∧ r = to_result ds ∧ ¬ all_zero ds.2)
  ∧ (∀ ds, ds ∈ sessions_by_dir st → all_zero ds.2 →
           cache_creation_tokens ds.2 ≠ 0 ∨ cache_read_tokens ds.2 ≠ 0 →
           to_result ds ∉ result)
  ∧ length result
    = length (filter (λ ds, is_empty_session ds.2 = false) (sessions_by_dir st)).
Proof.
  intros st result all_zero.
  assert (Hdrop : ∀ ds, ds ∈ sessions_by_dir st → all_zero ds.2 →
                        to_result ds ∉ result).
  { intros ds _ Hzero Hin. apply elem_of_final_sessions in Hin
      as (ds' & _ & Heq & Hkeep).
    assert (is_empty_session ds'.2 = true); [|congruence].
    apply is_empty_session_spec. destruct ds as [d s], ds' as [d' s'].
    injection Heq as _ _ Hi Ho _ _ Hc _ _. simpl in *.
    destruct Hzero as (Hc0 & Hi0 & Ho0). rewrite <- Hc, <- Hi, <- Ho. done. }
  split; [exact Hdrop|]. split; [|split; [|split]].
  - intros ds Hin Hnz. apply elem_of_final_sessions. exists ds.
    split; [done|]. split; [done|].
    destruct (is_empty_session ds.2) eqn:He; [|done].
    by apply is_empty_session_spec in He.
  - intros r Hr. apply elem_of_final_sessions in Hr as (ds & Hin & -> & Hkeep).
    exists ds. split; [done|]. split; [done|]. intros Hzero.
    apply is_empty_session_spec in Hzero. congruence.
  - intros ds Hin Hzero _. by apply Hdrop.
  - unfold result, process_files_with_global_dedup, final_sessions.
    by rewrite length_fmap.
Qed.

(** One file with one admitted entry that carries only cache tokens, for a
    model whose cache rates the fallback price table lacks. *)
Lemma empty_sessions_dropped_witness :
  let e := Log.UsageEntry (Some "m") (Some "r") (Log.TsParsed 5 "2025-06-01")
             (Some "claude-sonnet-4-20250514") (Cost.Usage 0 0 50 20)
             Cost.CostAbsent in
  let d := SessionDir "/home/u/.claude/projects" "-home-u-a" in
  let f := LogFile "/home/u/.claude/projects/-home-u-a/1.jsonl" d
             (Some 100) (Some [Log.LUsage e]) in
  let opts := Options Daily None in
  let acc := SessionData 0 0 0 50 20 (Some "2025-06-01")
               {["claude-sonnet-4-20250514"]} (Some d) in
  (d, acc) ∈ sessions_by_dir
               (process_files Cost.Auto Cost.fallback_pricing opts initial_state [f])
  ∧ to_result (d, acc)
    ∉ process_files_with_global_dedup Cost.Auto Cost.fallback_pricing opts [f].
Proof.
  intros e d f opts acc.
  assert (Hin : (d, acc) ∈ sessions_by_dir
                  (process_files Cost.Auto Cost.fallback_pricing opts
                     initial_state [f])).
  { vm_compute. by left. }
  split; [exact Hin|].
  apply (proj1 (empty_sessions_dropped Cost.Auto Cost.fallback_pricing opts [f])
           (d, acc) Hin).
  by vm_compute.
Defined.

(** Admission by the window is not yet accumulation. Under the [daily]
    command the activity date is parsed a second time, outside any handler
    for [ValueError]: an admitted entry whose timestamp text is malformed
    marks its fingerprint and then abandons its file, so that neither it nor
    its later replica is accumulated. Under [monthly] the date is not
    parsed and the first replica is accumulated. *)
Example malformed_timestamp_abandons_file :
  let e := Log.UsageEntry (Some "m") (Some "r") Log.TsMalformed
             None (Cost.Usage 10 5 0 0) Cost.CostAbsent in
  let fa := LogFile "/home/u/.claude/projects/-home-u-a/1.jsonl"
              (SessionDir "/home/u/.claude/projects" "-home-u-a")
              (Some 100) (Some [Log.LUsage e]) in
  let fb := LogFile "/home/u/.claude/vms/v1/projects/-home-u-b/1.jsonl"
              (SessionDir "/home/u/.claude/vms/v1/projects" "-home-u-b")
              (Some 200) (Some [Log.LUsage e]) in
  process_files_with_global_dedup Cost.Auto Cost.fallback_pricing
    (Options Daily None) [fa; fb] = []
  ∧ inputTokens
      <$> process_files_with_global_dedup Cost.Auto Cost.fallback_pricing
            (Options Monthly None) [fa; fb] = [10].
Proof. intros e fa fb. split; by vm_compute. Qed.

End AggregationFacts.

(** ** Deduplication window: invariants of the store *)

Module DedupMore.
Import Log Dedup.

Lemma skipped_keeps_store w thr st e :
  (admit_entry w thr st e).1 = false → (admit_entry w thr st e).2 = st.
Proof.
  unfold admit_entry, admit_hash.
  by destruct (skip_duplicate w st _ _).
Qed.

Lemma admitted_store w thr st e :
  (admit_entry w thr st e).1 = true →
  (admit_entry w thr st e).2
  = cleanup w thr
      (mark_processed st (create_unique_hash e) (current_timestamp e))
      (current_timestamp e).
Proof.
  unfold admit_entry, admit_hash.
  by destruct (skip_duplicate w st _ _).
Qed.

Lemma marked_lookup st e h' :
  hash_timestamps
    (mark_processed st (create_unique_hash e) (current_timestamp e)) !! h'
  = match create_unique_hash e, current_timestamp e with
    | Some h, Some t => if decide (h = h') then Some t else hash_timestamps st !! h'
    | _, _ => hash_timestamps st !! h'
    end.
Proof.
  unfold mark_processed.
  destruct (create_unique_hash e) as [h|] eqn:He; [|done].
  rewrite (DedupFacts.unique_hash_truthy _ _ He).
  destruct (current_timestamp e) as [t|]; [|done].
  cbn [hash_timestamps]. apply lookup_insert.
Qed.

Lemma marked_elem st e h' :
  h' ∈ global_processed_hashes
         (mark_processed st (create_unique_hash e) (current_timestamp e))
  ↔ h' ∈ global_processed_hashes st ∨ create_unique_hash e = Some h'.
Proof.
  unfold mark_processed.
  destruct (create_unique_hash e) as [h|] eqn:He.
  - rewrite (DedupFacts.unique_hash_truthy _ _ He). cbn [global_processed_hashes].
    rewrite elem_of_union, elem_of_singleton. split.
    + intros [->|?]; [by right|by left].
    + intros [?|[= ->]]; [by right|by left].
  - split; [by left|]. by intros [?|?].
Qed.

(** One step keeps every timed fingerprint inside the set of processed
    fingerprints. *)
Lemma step_keeps_tracked w thr st e :
  (∀ h t, hash_timestamps st !! h = Some t → h ∈ global_processed_hashes st) →
  ∀ h t, hash_timestamps (admit_entry w thr st e).2 !! h = Some t
         → h ∈ global_processed_hashes (admit_entry w thr st e).2.
Proof.
  intros Hinv h t.
  destruct (admit_entry w thr st e).1 eqn:Hok.
  - rewrite (admitted_store _ _ _ _ Hok).
    set (marked := mark_processed st _ _).
    assert (Hmarked : ∀ h' t', hash_timestamps marked !! h' = Some t'
                               → h' ∈ global_processed_hashes marked).
    { intros h' t' Hl. apply marked_elem. unfold marked in Hl.
      rewrite marked_lookup in Hl.
      destruct (create_unique_hash e) as [h0|]; [|left; by eapply Hinv].
      destruct (current_timestamp e); [|left; by eapply Hinv].
      case_decide; [subst; by right|left; by eapply Hinv]. }
    destruct (current_timestamp e) as [ct|]; [|apply Hmarked].
    rewrite DedupFacts.cleanup_lookup, DedupFacts.cleanup_elem.
    destruct (_ >? _) eqn:Hsize.
    + destruct (hash_timestamps marked !! h) as [t'|] eqn:Hl; [|done].
      case_decide as Hold; [done|]. intros _. split; [by eapply Hmarked|].
      intros [_ (t'' & Hl' & Hlt)]. congruence.
    + intros Hl. split; [by eapply Hmarked|]. intros [Hgt _]. lia.
  - rewrite (skipped_keeps_store _ _ _ _ Hok). apply Hinv.
Qed.

(** X1. Along every stream, from the empty store, every fingerprint that has
    a first-seen timestamp is also in the set of processed fingerprints:
    the cleanup never leaves a timestamp behind for a fingerprint that it
    dropped from the set, and the marking never records a timestamp without
    the fingerprint. *)
Theorem tracked_hashes_are_processed
    (w thr : Z) (es : list usage_entry) (h : string) (t : Z) :
  hash_timestamps (run w thr empty_store es) !! h = Some t →
  h ∈ global_processed_hashes (run w thr empty_store es).
Proof.
  revert h t. unfold run.
  induction es as [|e es IH] using rev_ind; [done|].
  rewrite foldl_app. cbn [foldl]. by apply step_keeps_tracked.
Qed.

Lemma tracked_hashes_are_processed_witness :
  let ev t := UsageEntry (Some "m") (Some "r") (TsParsed t "2025-06-01")
                None (Cost.Usage 1 1 0 0) Cost.CostAbsent in
  "m:r" ∈ global_processed_hashes (run 24 10000 empty_store [ev 0; ev (hours 30)]).
Proof.
  intros ev.
  apply (tracked_hashes_are_processed 24 10000 [ev 0; ev (hours 30)] "m:r" (hours 30)).
  by vm_compute.
Defined.

(** X2. An entry with a fingerprint is never admitted twice in a row: right
    after it went through the window, whether admitted or rejected, the same
    entry is rejected. *)
Theorem immediate_repeat_rejected
    (w thr : Z) (st : store) (e : usage_entry) (h : string) :
  0 ≤ w →
  create_unique_hash e = Some h →
  (admit_entry w thr (admit_entry w thr st e).2 e).1 = false.
Proof.
  intros Hw He.
  destruct (admit_entry w thr st e).1 eqn:Hok.
  - pose proof (DedupFacts.unique_hash_truthy _ _ He) as Hh.
    rewrite (admitted_store _ _ _ _ Hok), He.
    unfold admit_entry at 1. unfold admit_hash. rewrite He.
    destruct (current_timestamp e) as [t|] eqn:Ht.
    + destruct (DedupFacts.admit_records w thr st h t Hw Hh) as [Hl Hin].
      rewrite (proj2 (DedupFacts.skip_seen_both w _ h t t Hh Hin Hl)); [done|].
      unfold hours, hour. lia.
    + rewrite DedupFacts.skip_seen_missing; [done|done| |by left].
      unfold cleanup, mark_processed. rewrite Hh. cbn [global_processed_hashes].
      set_solver.
  - by rewrite (skipped_keeps_store _ _ _ _ Hok).
Qed.

Lemma immediate_repeat_rejected_witness :
  let e := UsageEntry (Some "m") (Some "r") (TsParsed 7 "2025-06-01")
             None (Cost.Usage 1 1 0 0) Cost.CostAbsent in
  (admit_entry 24 10000 (admit_entry 24 10000 empty_store e).2 e).1 = false.
Proof.
  intros e. by apply (immediate_repeat_rejected 24 10000 empty_store e "m:r").
Defined.

(** A fingerprint in the set without a timestamp stays so through any
    step. *)
Lemma untimed_stays w thr st e h :
  h ∈ global_processed_hashes st →
  hash_timestamps st !! h = None →
  (create_unique_hash e = Some h → (admit_entry w thr st e).1 = false)
  ∧ h ∈ global_processed_hashes (admit_entry w thr st e).2
  ∧ hash_timestamps (admit_entry w thr st e).2 !! h = None.
Proof.
  intros Hin Hl.
  assert (Hrej : create_unique_hash e = Some h → (admit_entry w thr st e).1 = false).
  { intros He. unfold admit_entry, admit_hash. rewrite He.
    rewrite DedupFacts.skip_seen_missing; [done| |done|by right].
    by eapply DedupFacts.unique_hash_truthy. }
  split; [exact Hrej|].
  destruct (admit_entry w thr st e).1 eqn:Hok.
  - rewrite (admitted_store _ _ _ _ Hok).
    set (marked := mark_processed st _ _).
    assert (Hne : create_unique_hash e ≠ Some h).
    { intros He. specialize (Hrej He). congruence. }
    assert (Hl' : hash_timestamps marked !! h = None).
    { unfold marked. rewrite marked_lookup.
      destruct (create_unique_hash e) as [h0|]; [|done].
      destruct (current_timestamp e); [|done].
      case_decide; [congruence|done]. }
    assert (Hin' : h ∈ global_processed_hashes marked).
    { apply marked_elem. by left. }
    destruct (current_timestamp e) as [ct|]; [|done].
    rewrite DedupFacts.cleanup_lookup, DedupFacts.cleanup_elem, Hl'. split.
    + split; [done|]. intros [_ (t' & Ht' & _)]. congruence.
    + by destruct (_ >? _).
  - by rewrite (skipped_keeps_store _ _ _ _ Hok).
Qed.

(** X3. A fingerprint that was first seen on an entry without a parsed
    timestamp is suppressed for the rest of the run: it sits in the set with
    no timestamp, no cleanup can evict it, and every later entry that
    carries it is rejected, whatever its own timestamp. *)
Theorem untimed_fingerprint_suppressed
    (w thr : Z) (st : store) (h : string) (es : list usage_entry)
    (i : nat) (e : usage_entry) :
  h ∈ global_processed_hashes st →
  hash_timestamps st !! h = None →
  es !! i = Some e →
  create_unique_hash e = Some h →
  admissions w thr st es !! i = Some false.
Proof.
  revert st i. induction es as [|e0 es IH]; intros st i Hin Hl Hi He; [done|].
  destruct (untimed_stays w thr st e0 h Hin Hl) as (Hrej & Hin' & Hl').
  cbn [admissions]. destruct (admit_entry w thr st e0) as [ok st'] eqn:Hstep.
  destruct i as [|i]; simpl in *.
  - injection Hi as ->. by rewrite Hrej.
  - by apply IH.
Qed.

Lemma untimed_fingerprint_suppressed_witness :
  let e ts := UsageEntry (Some "m") (Some "r") ts
                None (Cost.Usage 1 1 0 0) Cost.CostAbsent in
  let st := (admit_entry 24 10000 empty_store (e TsAbsent)).2 in
  admissions 24 10000 st
    [e (TsParsed (hours 1000) "2025-07-12"); e (TsParsed (hours 2000) "2025-08-23")]
  !! 1%nat = Some false.
Proof.
  intros e st.
  apply (untimed_fingerprint_suppressed 24 10000 st "m:r" _ 1
           (e (TsParsed (hours 2000) "2025-08-23"))); done.
Defined.

End DedupMore.

(** ** Fingerprints and the cost calculator: further properties *)

Module CostMore.
Import Cost.

Lemma append_nil_l s : "" +:+ s = s.
Proof. reflexivity. Qed.

Lemma append_cons c s t : String c s +:+ t = String c (s +:+ t).
Proof. reflexivity. Qed.

Lemma append_colon_inj m1 m2 r1 r2 :
  Text.contains ":" m1 = false → Text.contains ":" m2 = false →
  m1 +:+ ":" +:+ r1 = m2 +:+ ":" +:+ r2 → m1 = m2 ∧ r1 = r2.
Proof.
  revert m2. induction m1 as [|c1 m1 IH]; intros [|c2 m2];
    rewrite ?append_cons, ?append_nil_l; cbn [Text.contains].
  - intros _ _ [= ->]. done.
  - intros _ Hc [= <- _]. done.
  - intros Hc _ [= -> _]. done.
  - intros H1 H2 [= -> Heq].
    apply orb_false_iff in H1 as [_ H1], H2 as [_ H2].
    destruct (IH m2 H1 H2 Heq) as [-> ->]. done.
Qed.

(** X4. The fingerprint tells entries apart as long as message ids hold no
    colon: two entries with such message ids and the same fingerprint have
    the same message id and the same request id. *)
Theorem fingerprint_injective (e1 e2 : Log.usage_entry) (m1 m2 h : string) :
  Log.message_id e1 = Some m1 →
  Log.message_id e2 = Some m2 →
  Text.contains ":" m1 = false →
  Text.contains ":" m2 = false →
  Log.create_unique_hash e1 = Some h →
  Log.create_unique_hash e2 = Some h →
  m1 = m2 ∧ Log.request_id e1 = Log.request_id e2.
Proof.
  unfold Log.create_unique_hash. intros -> -> H1 H2.
  destruct (Log.request_id e1) as [r1|]; [|done].
  destruct (Log.request_id e2) as [r2|]; [|done].
  intros [= <-] [= Heq].
  destruct (append_colon_inj m2 m1 r2 r1 H2 H1 Heq) as [-> ->]. done.
Qed.

Lemma fingerprint_injective_witness :
  let e r := Log.UsageEntry (Some "msg_01") (Some r) Log.TsAbsent
               None (Usage 1 1 0 0) CostAbsent in
  "msg_01" = "msg_01" ∧ Log.request_id (e "req_7") = Log.request_id (e "req_7").
Proof.
  intros e.
  by apply (fingerprint_injective (e "req_7") (e "req_7") "msg_01" "msg_01"
              "msg_01:req_7").
Defined.

(** X5. Only models whose name starts with [claude-] are ever priced: for
    every table that [get_pricing_data] returns, fetched or fallback, an
    entry of any other model costs exactly 0 in the [calculate] mode,
    whatever its tokens, and also in the [auto] mode when it declares no
    cost. *)
Theorem other_models_cost_nothing
    (fetched : option (gmap string pricing)) (declared : json_cost)
    (u : usage) (m : string) :
  String.prefix "claude-" m = false →
  calculate_entry_cost Calculate (get_pricing_data fetched) declared u (Some m) = 0%Q
  ∧ (declared = CostAbsent ∨ declared = CostNull →
     calculate_entry_cost Auto (get_pricing_data fetched) declared u (Some m) = 0%Q).
Proof.
  intros Hm.
  assert (Hl : get_pricing_data fetched !! m = None).
  { destruct fetched as [all|]; simpl.
    - apply map_lookup_filter_None. right. intros p _. simpl. congruence.
    - unfold fallback_pricing.
      rewrite !lookup_insert_ne, lookup_empty; [done|by intros <-..]. }
  assert (Hc : cost_from_model (get_pricing_data fetched) u (Some m) = 0%Q).
  { unfold cost_from_model. destruct (Py.truthy_str (Some m)); [|done].
    by apply CostFacts.calculate_cost_unknown. }
  split; [exact Hc|]. by intros [-> | ->].
Qed.

Lemma other_models_cost_nothing_witness :
  calculate_entry_cost Calculate
    (get_pricing_data (Some (<["gpt-4o" := Pricing (Some 1%Q) (Some 1%Q) None None]> ∅)))
    CostAbsent (Usage 100 100 0 0) (Some "gpt-4o") = 0%Q.
Proof.
  exact (proj1 (other_models_cost_nothing
                  (Some (<["gpt-4o" := Pricing (Some 1%Q) (Some 1%Q) None None]> ∅))
                  CostAbsent (Usage 100 100 0 0) "gpt-4o" eq_refl)).
Defined.



Lemma category_cost_nonneg r n :
  (∀ q, r = Some q → 0 <= q)%Q → 0 ≤ n → (0 <= category_cost r n)%Q.
Proof.
  intros Hr Hn. unfold category_cost. destruct r as [q|]; [|apply Qle_refl].
  apply Qmult_le_0_compat; [|by apply Hr].
  change 0%Q with (inject_Z 0). by rewrite <- Zle_Qle.
Qed.

Lemma Qplus_nonneg (a b : Q) : (0 <= a → 0 <= b → 0 <= a + b)%Q.
Proof. intros Ha Hb. apply (Qplus_le_compat 0 a 0 b Ha Hb). Qed.

(** X7. With a table that has no negative rate for the model, and token
    counts that are not negative, the computed cost is not negative; and an
    entry without tokens costs exactly 0 for every table and model. *)
Theorem cost_nonnegative
    (pricing_data : gmap string pricing) (u : usage) (m : string) :
  (∀ p q, pricing_data !! m = Some p →
          input_cost_per_token p = Some q ∨ output_cost_per_token p = Some q
          ∨ cache_creation_input_token_cost p = Some q
          ∨ cache_read_input_token_cost p = Some q →
          0 <= q)%Q →
  0 ≤ input_tokens u → 0 ≤ output_tokens u →
  0 ≤ cache_creation_input_tokens u → 0 ≤ cache_read_input_tokens u →
  (0 <= calculate_cost_from_tokens pricing_data u m)%Q
  ∧ calculate_cost_from_tokens pricing_data (Usage 0 0 0 0) m = 0%Q.
Proof.
  intros Hrates Hi Ho Hc Hr. split.
  - destruct (pricing_data !! m) as [p|] eqn:Hp.
    + rewrite (CostFacts.calculate_cost_known _ _ _ _ Hp).
      unfold tokens_times_rates.
      repeat apply Qplus_nonneg;
        (apply category_cost_nonneg; [|done]);
        intros q Hq; apply (Hrates p q eq_refl); tauto.
    + rewrite (CostFacts.calculate_cost_unknown _ _ _ Hp). apply Qle_refl.
  - unfold calculate_cost_from_tokens.
    destruct (pricing_data !! m) as [p|]; [|done].
    unfold add_category. cbn.
    by destruct (input_cost_per_token p), (output_cost_per_token p),
      (cache_creation_input_token_cost p), (cache_read_input_token_cost p);
      rewrite ?andb_false_r.
Qed.

Lemma cost_nonnegative_witness :
  (0 <= calculate_cost_from_tokens fallback_pricing (Usage 1000 200 50 0)
          "claude-opus-4-20250514")%Q.
Proof.
  apply (cost_nonnegative fallback_pricing (Usage 1000 200 50 0)
           "claude-opus-4-20250514"); try done.
  intros p q Hp Hq. vm_compute in Hp. injection Hp as <-.
  cbn in Hq. destruct Hq as [[= <-]|[[= <-]|[?|?]]]; done.
Defined.

End CostMore.

(** ** File ordering and aggregation: further properties *)

Module AggregationMore.
Import Aggregation.

Section Stable.
Context {A : Type} (before : A → A → bool).
Context (P : A → Prop) `{!∀ x, Decision (P x)}.
Context (same_class : ∀ x y, P x → P y → before y x = false).

Lemma filter_insert_in x l :
  P x → filter P (Py.insert_sorted before x l) = x :: filter P l.
Proof.
  intros Hx. induction l as [|y l IH]; cbn [Py.insert_sorted].
  - by rewrite filter_cons_True.
  - destruct (before y x) eqn:Hb.
    + assert (¬ P y) by (intros Hy; by rewrite (same_class x y Hx Hy) in Hb).
      by rewrite !filter_cons_False.
    + by rewrite filter_cons_True.
Qed.

Lemma filter_insert_out x l :
  ¬ P x → filter P (Py.insert_sorted before x l) = filter P l.
Proof.
  intros Hx. induction l as [|y l IH]; cbn [Py.insert_sorted].
  - by rewrite filter_cons_False.
  - destruct (before y x).
    + destruct (decide (P y)).
      * by rewrite !filter_cons_True, IH.
      * by rewrite !filter_cons_False.
    + by rewrite filter_cons_False.
Qed.

Lemma filter_sorted l : filter P (Py.sorted before l) = filter P l.
Proof.
  induction l as [|x l IH]; [done|]. cbn [Py.sorted].
  destruct (decide (P x)).
  - by rewrite filter_insert_in, filter_cons_True, IH.
  - by rewrite filter_insert_out, filter_cons_False, IH.
Qed.
End Stable.

(** X8. [sort_all_files_by_timestamp] returns the files it was given, each
    once, in an order where the sort keys never decrease: modification
    time first, then the earliest content timestamp. *)
Theorem sort_files_sorted (file_tuples : list log_file) :
  let n := length file_tuples in
  sort_all_files_by_timestamp file_tuples ≡ₚ file_tuples
  ∧ StronglySorted (λ a b, key_le (sort_key n a) (sort_key n b))
      (sort_all_files_by_timestamp file_tuples).
Proof.
  intros n. unfold sort_all_files_by_timestamp. fold n.
  split; [apply PyFacts.sorted_perm|].
  set (R := λ a b : log_file, key_le (sort_key n a) (sort_key n b)).
  assert (Transitive R).
  { intros a b c. unfold R, key_le. lia. }
  apply (PyFacts.sorted_strongly _ R).
  - intros y x. apply AggregationFacts.key_ltb_le.
  - intros y x. apply AggregationFacts.key_ltb_ge.
Qed.

(** X9. The sort is stable: the files that share a sort key come out in the
    order in which they were given. *)
Theorem sort_files_stable (file_tuples : list log_file) (k : Z * Z) :
  let n := length file_tuples in
  filter (λ f, sort_key n f = k) (sort_all_files_by_timestamp file_tuples)
  = filter (λ f, sort_key n f = k) file_tuples.
Proof.
  intros n. unfold sort_all_files_by_timestamp. fold n.
  apply filter_sorted. intros x y -> ->.
  unfold key_ltb. destruct k as [a b]. simpl. lia.
Qed.





End AggregationMore.

(** ** The processing loop: invariants of the session store *)

Module ProcessFacts.
Import Aggregation.

Lemma elem_of_dict_update {K V} `{EqDecision K} (k k' : K) (v' : V) f dflt d :
  (k', v') ∈ Py.dict_update k f dflt d →
  (k', v') ∈ d ∨ (k' = k ∧ ∃ v, v' = f v).
Proof.
  induction d as [|[k0 v0] d IH]; cbn [Py.dict_update].
  - intros Hin. apply list_elem_of_singleton in Hin as [= -> ->]. right. eauto.
  - destruct (decide (k = k0)) as [->|Hne]; rewrite !elem_of_cons.
    + intros [[= -> ->]|Hin]; [right; eauto|left; by right].
    + intros [[= -> ->]|Hin]; [left; by left|].
      destruct (IH Hin) as [?|?]; [left; by right|by right].
Qed.

Lemma key_in_dict_update {K V} `{EqDecision K} (k : K) (f : V → V) dflt d :
  k ∈ (Py.dict_update k f dflt d).*1.
Proof.
  rewrite PyFacts.dict_update_keys. case_bool_decide; [done|].
  apply elem_of_app. right. by apply list_elem_of_singleton.
Qed.

Lemma keys_dict_update_subset {K V} `{EqDecision K} (k k' : K) (f : V → V) dflt d :
  k' ∈ (Py.dict_update k f dflt d).*1 → k' ∈ d.*1 ∨ k' = k.
Proof.
  rewrite PyFacts.dict_update_keys. case_bool_decide; [by left|].
  rewrite elem_of_app, list_elem_of_singleton. tauto.
Qed.

Section Invariant.
Context (mode : Cost.cost_mode) (pricing_data : gmap string Cost.pricing)
        (opts : options).

Lemma process_line_ok dirs d st has l :
  d ∈ dirs → Invariants.store_ok dirs st → (has = true → d ∈ (sessions_by_dir st).*1) →
  let r := process_line mode pricing_data opts d (st, has) l in
  Invariants.store_ok dirs r.1.1 ∧ (r.1.2 = true → d ∈ (sessions_by_dir r.1.1).*1).
Proof.
  intros Hd (Hcount & Hnd & Hfield & Hdirs) Hhas.
  assert (Hsame : ∀ dd p k,
            Invariants.store_ok dirs (State dd (sessions_by_dir st) (session_count st) p k)).
  { intros. by repeat split. }
  assert (Hupd : ∀ dd p k g,
            Invariants.store_ok dirs
              (State dd (update_session d (λ s, accumulate g.1.1 d g.1.2 g.2.1 g.2.2 s)
                           (sessions_by_dir st)) (session_count st) p k)).
  { intros dd p k g. unfold update_session. split; [done|]. split; [|split].
    - by apply PyFacts.dict_update_NoDup.
    - intros d' s' Hin. cbn [sessions_by_dir] in Hin.
      apply elem_of_dict_update in Hin as [Hin|[-> [s ->]]]; [by apply Hfield|done].
    - intros d' Hin. cbn [sessions_by_dir] in Hin.
      apply keys_dict_update_subset in Hin as [Hin| ->]; [by apply Hdirs|done]. }
  unfold process_line. destruct l as [| |ts|e]; try (by split; [|apply Hhas]).
  destruct (Dedup.admit_entry _ _ _ e) as [fresh dd].
  destruct fresh; cbn [negb]; [|by split; [apply Hsame|apply Hhas]].
  set (cost := Cost.calculate_entry_cost _ _ _ _ _).
  set (nt := need_timestamps _).
  assert (Hagg : ∀ a,
    let r := (State dd
                (update_session d (accumulate nt d e cost a) (sessions_by_dir st))
                (session_count st) (total_entries_processed st + 1)
                (total_entries_skipped st), true, Next) in
    Invariants.store_ok dirs r.1.1 ∧ (r.1.2 = true → d ∈ (sessions_by_dir r.1.1).*1)).
  { intros a r. split; [apply (Hupd _ _ _ (nt, e, (cost, a)))|].
    intros _. apply key_in_dict_update. }
  destruct nt; [|apply Hagg].
  destruct (Log.timestamp e); try apply Hagg; by split; [apply Hsame|apply Hhas].
Qed.

Lemma process_lines_ok dirs d lines st has :
  d ∈ dirs → Invariants.store_ok dirs st → (has = true → d ∈ (sessions_by_dir st).*1) →
  let r := process_lines mode pricing_data opts d (st, has) lines in
  Invariants.store_ok dirs r.1.1 ∧ (r.1.2 = true → d ∈ (sessions_by_dir r.1.1).*1).
Proof.
  intros Hd. revert st has. induction lines as [|l lines IH]; intros st has Hok Hhas.
  - by split.
  - cbn [process_lines].
    pose proof (process_line_ok dirs d st has l Hd Hok Hhas) as Hstep.
    destruct (process_line mode pricing_data opts d (st, has) l)
      as [[st' has'] [|]]; cbn [fst snd] in Hstep; [|exact Hstep].
    apply IH; apply Hstep.
Qed.

Lemma process_file_ok dirs st f :
  dir f ∈ dirs → Invariants.store_ok dirs st →
  Invariants.store_ok dirs (process_file mode pricing_data opts st f).
Proof.
  intros Hd Hok. unfold process_file. destruct (content f) as [lines|]; [|done].
  pose proof (process_lines_ok dirs (dir f) lines st false Hd Hok ltac:(done)) as Hl.
  destruct (process_lines mode pricing_data opts (dir f) (st, false) lines)
    as [[st' has'] [|]]; cbn [fst snd] in Hl; [|apply Hl].
  destruct Hl as [Hok' Hkey].
  destruct has'; cbn [andb]; [|done].
  rewrite bool_decide_eq_true_2; [done|].
  specialize (Hkey eq_refl). apply list_elem_of_fmap in Hkey as ([d s] & Hd' & Hin).
  simpl in Hd'. subst d. apply list_elem_of_fmap. exists (dir f, s).
  split; [|done]. simpl. symmetry. by apply Hok'.
Qed.

Lemma foldl_process_file_ok dirs files st :
  (∀ f, f ∈ files → dir f ∈ dirs) → Invariants.store_ok dirs st →
  Invariants.store_ok dirs (foldl (process_file mode pricing_data opts) st files).
Proof.
  revert st. induction files as [|f files IH]; intros st Hdirs Hok; [done|].
  cbn [foldl]. apply IH.
  - intros f' ?. apply Hdirs. by right.
  - apply process_file_ok; [|done]. apply Hdirs. by left.
Qed.

Lemma process_files_foldl dirs files st :
  (∀ f, f ∈ files → dir f ∈ dirs) → Invariants.store_ok dirs st →
  stop_early opts (State (dedup st) (sessions_by_dir st) 0
                     (total_entries_processed st) (total_entries_skipped st))
  = false →
  process_files mode pricing_data opts st files
  = foldl (process_file mode pricing_data opts) st files.
Proof.
  revert st. induction files as [|f files IH]; intros st Hdirs Hok Hstop; [done|].
  assert (Hst : stop_early opts st = false).
  { unfold stop_early in *. by rewrite (proj1 Hok). }
  cbn [process_files foldl]. rewrite Hst. apply IH.
  - intros f' ?. apply Hdirs. by right.
  - apply process_file_ok; [|done]. apply Hdirs. by left.
  - unfold stop_early in *. done.
Qed.

Lemma initial_ok dirs : Invariants.store_ok dirs initial_state.
Proof.
  split; [done|]. split; [constructor|]. split.
  - intros d s Hin. by apply elem_of_nil in Hin.
  - intros d Hin. by apply elem_of_nil in Hin.
Qed.

Lemma run_ok files :
  stop_early opts initial_state = false →
  Invariants.store_ok (dir <$> files)
    (process_files mode pricing_data opts initial_state files)
  ∧ process_files mode pricing_data opts initial_state files
    = foldl (process_file mode pricing_data opts) initial_state files.
Proof.
  intros Hstop.
  assert (Hdirs : ∀ f, f ∈ files → dir f ∈ dir <$> files).
  { intros f Hf. apply list_elem_of_fmap. by exists f. }
  rewrite (process_files_foldl (dir <$> files) files initial_state Hdirs
             (initial_ok _) Hstop).
  split; [|done]. apply foldl_process_file_ok; [done|apply initial_ok].
Qed.

End Invariant.

Lemma stop_early_initial opts :
  match opt_last opts with
  | Some n => 0 ≤ n ∨ opt_command opts ≠ Session
  | None => True
  end →
  stop_early opts initial_state = false.
Proof.
  unfold stop_early. destruct (opt_last opts) as [n|]; [|done].
  destruct (opt_command opts); try done.
  intros [Hn|?]; [|done]. unfold Py.truthy_int. cbn [session_count initial_state].
  destruct (n =? 0) eqn:H0; [done|]. simpl. lia.
Qed.

(** X11. The session counter of the early exit never counts: a file is only
    counted when its directory is not yet among the sessions, and a file
    that contributed has just put it there. So [--last N] with [N >= 0]
    never shortens the scan, under any command: the sessions returned are
    those returned without [--last]. A negative [N] under the [session]
    command stops the scan before the first file, and no session is
    returned, whatever the corpus holds. *)
Theorem last_never_shortens
    (mode : Cost.cost_mode) (pricing_data : gmap string Cost.pricing)
    (cmd : command) (n : Z) (files : list log_file) :
  (0 ≤ n ∨ cmd ≠ Session →
   session_count (process_files mode pricing_data (Options cmd (Some n))
                    initial_state files) = 0
   ∧ process_files_with_global_dedup mode pricing_data (Options cmd (Some n)) files
     = process_files_with_global_dedup mode pricing_data (Options cmd None) files)
  ∧ (n < 0 → cmd = Session →
     process_files_with_global_dedup mode pricing_data (Options cmd (Some n)) files
     = []).
Proof.
  split.
  - intros Hn.
    destruct (run_ok mode pricing_data (Options cmd (Some n)) files
                (stop_early_initial (Options cmd (Some n)) Hn)) as [Hok Hfold].
    destruct (run_ok mode pricing_data (Options cmd None) files
                (stop_early_initial (Options cmd None) I)) as [_ Hfold'].
    split; [apply Hok|].
    unfold process_files_with_global_dedup. by rewrite Hfold, Hfold'.
  - intros Hn ->. unfold process_files_with_global_dedup.
    destruct files as [|f files]; [done|]. cbn [process_files].
    assert (stop_early (Options Session (Some n)) initial_state = true) as ->; [|done].
    unfold stop_early, Py.truthy_int. cbn.
    destruct (n =? 0) eqn:H0; [lia|]. simpl. lia.
Qed.

Lemma last_never_shortens_witness :
  let e := Log.UsageEntry (Some "m") (Some "r") (Log.TsParsed 5 "2025-06-01")
             None (Cost.Usage 10 5 0 0) Cost.CostAbsent in
  let f n := LogFile "/p/1.jsonl" (SessionDir "/p" n) (Some 100) (Some [Log.LUsage e]) in
  process_files_with_global_dedup Cost.Auto Cost.fallback_pricing
    (Options Session (Some 1)) [f "-a"; f "-b"]
  = process_files_with_global_dedup Cost.Auto Cost.fallback_pricing
      (Options Session None) [f "-a"; f "-b"]
  ∧ process_files_with_global_dedup Cost.Auto Cost.fallback_pricing
      (Options Session (Some (-1))) [f "-a"; f "-b"] = [].
Proof.
  intros e f. split.
  - apply (proj1 (last_never_shortens Cost.Auto Cost.fallback_pricing Session 1
                    [f "-a"; f "-b"])).
    left. done.
  - by apply (proj2 (last_never_shortens Cost.Auto Cost.fallback_pricing Session (-1)
                       [f "-a"; f "-b"])).
Defined.

(** X12. The run keeps one accumulator per session directory: in the final
    store no directory occurs twice, every accumulator records the
    directory it is filed under, and every directory in the store is the
    directory of one of the files given. *)
Theorem one_session_per_directory
    (mode : Cost.cost_mode) (pricing_data : gmap string Cost.pricing)
    (opts : options) (files : list log_file) :
  let st := process_files mode pricing_data opts initial_state files in
  NoDup (sessions_by_dir st).*1
  ∧ (∀ d s, (d, s) ∈ sessions_by_dir st → session_dir_field s = Some d)
  ∧ (∀ d, d ∈ (sessions_by_dir st).*1 → d ∈ dir <$> files)
  ∧ (length (process_files_with_global_dedup mode pricing_data opts files)
     ≤ length (sessions_by_dir st))%nat.
Proof.
  intros st.
  assert (Hok : Invariants.store_ok (dir <$> files) st).
  { destruct (stop_early opts initial_state) eqn:Hstop.
    - replace st with initial_state; [apply initial_ok|].
      unfold st. destruct files; [done|]. cbn [process_files]. by rewrite Hstop.
    - by apply run_ok. }
  destruct Hok as (_ & Hnd & Hfield & Hdirs).
  split; [done|]. split; [done|]. split; [done|].
  unfold process_files_with_global_dedup, final_sessions.
  rewrite length_fmap. apply length_filter.
Qed.

Lemma one_session_per_directory_witness :
  let e m := Log.UsageEntry (Some m) (Some "r") (Log.TsParsed 5 "2025-06-01")
               None (Cost.Usage 10 5 0 0) Cost.CostAbsent in
  let d := SessionDir "/p" "-a" in
  let f p m := LogFile p d (Some 100) (Some [Log.LUsage (e m)]) in
  let st := process_files Cost.Auto Cost.fallback_pricing (Options Daily None)
              initial_state [f "/p/-a/1.jsonl" "m1"; f "/p/-a/2.jsonl" "m2"] in
  session_dir_field
    (SessionData 0 20 10 0 0 (Some "2025-06-01") ∅ (Some d)) = Some d.
Proof.
  intros e d f st.
  apply (proj1 (proj2 (one_session_per_directory Cost.Auto Cost.fallback_pricing
                         (Options Daily None)
                         [f "/p/-a/1.jsonl" "m1"; f "/p/-a/2.jsonl" "m2"]))).
  vm_compute. by left.
Defined.

Lemma not_usage_line_keeps mode pricing_data opts d acc lines :
  (∀ l e, l ∈ lines → l ≠ Log.LUsage e) →
  process_lines mode pricing_data opts d acc lines = (acc, Next).
Proof.
  revert acc. induction lines as [|l lines IH]; intros [st has] Hno; [done|].
  cbn [process_lines].
  assert (process_line mode pricing_data opts d (st, has) l = (st, has, Next)) as ->.
  { destruct l as [| | |e]; try done. exfalso. by apply (Hno (Log.LUsage e) e); [left|]. }
  apply IH. intros l' e Hin. apply Hno. by right.
Qed.

(** X13. Noise is skipped without a trace: a file that cannot be opened, or
    whose lines are all blank, invalid JSON or JSON without [message.usage],
    leaves the whole state of the run as it was. *)
Theorem noise_leaves_state
    (mode : Cost.cost_mode) (pricing_data : gmap string Cost.pricing)
    (opts : options) (st : state) (f : log_file) :
  (∀ lines l e, content f = Some lines → l ∈ lines → l ≠ Log.LUsage e) →
  process_file mode pricing_data opts st f = st.
Proof.
  intros Hno. unfold process_file. destruct (content f) as [lines|]; [|done].
  rewrite not_usage_line_keeps; [done|]. intros l e. by apply Hno.
Qed.

Lemma noise_leaves_state_witness :
  let f := LogFile "/p/-a/1.jsonl" (SessionDir "/p" "-a") None
             (Some [Log.LBlank; Log.LInvalidJson;
                    Log.LOther (Log.TsParsed 1 "2025-06-01")]) in
  process_file Cost.Auto Cost.fallback_pricing (Options Daily None) initial_state f
  = initial_state.
Proof.
  intros f.
  apply (noise_leaves_state Cost.Auto Cost.fallback_pricing (Options Daily None)
           initial_state f).
  intros lines l e [= <-] Hl. rewrite !elem_of_cons in Hl.
  destruct Hl as [->|[->|[->|Hl]]]; try done. by apply elem_of_nil in Hl.
Defined.

Lemma elem_of_dict_update_strong {K V} `{EqDecision K}
    (k k' : K) (v' : V) f dflt d :
  (k', v') ∈ Py.dict_update k f dflt d →
  (k', v') ∈ d ∨ (k' = k ∧ (v' = f dflt ∨ ∃ v, (k, v) ∈ d ∧ v' = f v)).
Proof.
  induction d as [|[k0 v0] d IH]; cbn [Py.dict_update].
  - intros Hin. apply list_elem_of_singleton in Hin as [= -> ->]. right. eauto.
  - destruct (decide (k = k0)) as [->|Hne]; rewrite !elem_of_cons.
    + intros [[= -> ->]|Hin]; [|left; by right].
      right. split; [done|]. right. exists v0. split; [by left|done].
    + intros [[= -> ->]|Hin]; [left; by left|].
      destruct (IH Hin) as [?|[-> [->|(v & ? & ->)]]]; [left; by right| |].
      * right. by split; [|left].
      * right. split; [done|]. right. exists v. split; [by right|done].
Qed.

Section Forall.
Context (mode : Cost.cost_mode) (pricing_data : gmap string Cost.pricing)
        (opts : options).
Context (φ : session_data → Prop).
Context (φ_accumulate : ∀ d e cost a s,
           (need_timestamps (opt_command opts) = false → a = None) →
           s = new_session ∨ φ s →
           φ (accumulate (need_timestamps (opt_command opts)) d e cost a s)).

Lemma process_line_forall d st has l :
  (∀ d' s, (d', s) ∈ sessions_by_dir st → φ s) →
  ∀ d' s, (d', s) ∈ sessions_by_dir
                      (process_line mode pricing_data opts d (st, has) l).1.1 → φ s.
Proof.
  intros Hall. unfold process_line. destruct l as [| |ts|e]; try exact Hall.
  destruct (Dedup.admit_entry _ _ _ e) as [fresh dd].
  destruct fresh; cbn [negb]; [|exact Hall].
  set (cost := Cost.calculate_entry_cost _ _ _ _ _).
  assert (Hagg : ∀ a, (need_timestamps (opt_command opts) = false → a = None) →
            ∀ d' s, (d', s) ∈ update_session d
                       (accumulate (need_timestamps (opt_command opts)) d e cost a)
                       (sessions_by_dir st) → φ s).
  { intros a Ha d' s Hin. unfold update_session in Hin.
    apply elem_of_dict_update_strong in Hin
      as [Hin|[-> [->|(s0 & Hin & ->)]]]; [by eapply Hall| |].
    - apply φ_accumulate; [done|by left].
    - apply φ_accumulate; [done|]. right. by eapply Hall. }
  destruct (need_timestamps (opt_command opts)) eqn:Hnt.
  - destruct (Log.timestamp e); try exact Hall; by apply Hagg.
  - by apply Hagg.
Qed.

Lemma process_lines_forall d lines st has :
  (∀ d' s, (d', s) ∈ sessions_by_dir st → φ s) →
  ∀ d' s, (d', s) ∈ sessions_by_dir
                      (process_lines mode pricing_data opts d (st, has) lines).1.1
          → φ s.
Proof.
  revert st has. induction lines as [|l lines IH]; intros st has Hall; [done|].
  cbn [process_lines].
  pose proof (process_line_forall d st has l Hall) as Hstep.
  destruct (process_line mode pricing_data opts d (st, has) l)
    as [[st' has'] [|]]; cbn [fst snd] in Hstep |- *; [|exact Hstep].
  by apply IH.
Qed.

Lemma process_file_forall st f :
  (∀ d' s, (d', s) ∈ sessions_by_dir st → φ s) →
  ∀ d' s, (d', s) ∈ sessions_by_dir (process_file mode pricing_data opts st f) → φ s.
Proof.
  intros Hall. unfold process_file. destruct (content f) as [lines|]; [|done].
  pose proof (process_lines_forall (dir f) lines st false Hall) as Hl.
  destruct (process_lines mode pricing_data opts (dir f) (st, false) lines)
    as [[st' has'] [|]]; cbn [fst snd] in Hl; [|exact Hl].
  by destruct (_ && _).
Qed.

Lemma process_files_forall files st :
  (∀ d' s, (d', s) ∈ sessions_by_dir st → φ s) →
  ∀ d' s, (d', s) ∈ sessions_by_dir (process_files mode pricing_data opts st files)
          → φ s.
Proof.
  revert st. induction files as [|f files IH]; intros st Hall; [done|].
  cbn [process_files]. destruct (stop_early opts st); [done|].
  by apply IH, process_file_forall.
Qed.
End Forall.

(** Under the [monthly] and [blocks] commands no accumulated session has a
    last activity, and every returned session carries the placeholder
    date. *)
Lemma undated_results
    (mode : Cost.cost_mode) (pricing_data : gmap string Cost.pricing)
    (cmd : command) (last : option Z) (files : list log_file)
    (r : session_result) :
  cmd = Monthly ∨ cmd = Blocks →
  r ∈ process_files_with_global_dedup mode pricing_data (Options cmd last) files →
  lastActivity r = "1970-01-01".
Proof.
  intros Hcmd Hr.
  apply AggregationFacts.elem_of_final_sessions in Hr as ([d s] & Hin & -> & _).
  cbn [to_result lastActivity].
  assert (Hnone : last_activity s = None); [|by rewrite Hnone].
  revert d s Hin.
  apply (process_files_forall mode pricing_data (Options cmd last)
           (λ s, last_activity s = None)).
  - intros d e cost a s Ha Hs. cbn [opt_command] in *.
    rewrite Ha by (by destruct Hcmd as [-> | ->]).
    destruct Hs as [->|Hs]; unfold accumulate; cbn [last_activity]; [done|].
    by rewrite Hs.
  - intros d s Hin. by apply elem_of_nil in Hin.
Qed.

End ProcessFacts.

(** ** Project names and the daily and monthly views: further properties *)

Module ViewsMore.

Lemma contains_app c s t :
  Text.contains c (s +:+ t) = Text.contains c s || Text.contains c t.
Proof.
  induction s as [|c' s IH]; [done|].
  change (String c' s +:+ t) with (String c' (s +:+ t)).
  cbn [Text.contains]. by rewrite IH, orb_assoc.
Qed.

Lemma append_snoc_cons s c t : (s +:+ String c "") +:+ t = s +:+ String c t.
Proof.
  induction s as [|c' s IH]; [done|].
  change (String c' s +:+ String c "") with (String c' (s +:+ String c "")).
  change (String c' (s +:+ String c "") +:+ t)
    with (String c' ((s +:+ String c "") +:+ t)).
  change (String c' s +:+ String c t) with (String c' (s +:+ String c t)).
  by rewrite IH.
Qed.

Lemma last_segment_aux_clean sep s acc :
  Text.contains sep acc = false →
  Text.contains sep (Py.last_segment_aux sep s acc) = false.
Proof.
  revert acc. induction s as [|c s IH]; intros acc Hacc; [done|].
  cbn [Py.last_segment_aux]. destruct (Ascii.eqb c sep) eqn:Hc.
  - by apply IH.
  - apply IH. rewrite contains_app, Hacc. cbn [Text.contains]. by rewrite Hc.
Qed.

Lemma last_segment_aux_whole sep s acc :
  Text.contains sep s = false → Py.last_segment_aux sep s acc = acc +:+ s.
Proof.
  revert acc. induction s as [|c s IH]; intros acc Hs.
  - cbn [Py.last_segment_aux]. induction acc as [|c acc IHacc]; [done|].
    change (String c acc +:+ "") with (String c (acc +:+ "")). by rewrite <- IHacc.
  - cbn [Text.contains] in Hs. apply orb_false_iff in Hs as [Hc Hs].
    cbn [Py.last_segment_aux]. rewrite Hc, IH by done. apply append_snoc_cons.
Qed.

Lemma last_segment_clean sep s : Text.contains sep (Py.last_segment sep s) = false.
Proof. by apply last_segment_aux_clean. Qed.

Lemma last_segment_idem sep s :
  Py.last_segment sep (Py.last_segment sep s) = Py.last_segment sep s.
Proof.
  unfold Py.last_segment at 1. by rewrite last_segment_aux_whole by apply last_segment_clean.
Qed.

(** The two branches of the project name, told apart by the first
    character. *)
Lemma dash_cases (s : string) :
  (∃ rest, s = String "-" rest) ∨ (∀ rest, s ≠ String "-" rest).
Proof.
  destruct s as [|c s]; [by right|].
  destruct (decide (c = "-"%char)) as [->|Hne]; [left; by eexists|].
  right. by intros rest [= -> _].
Qed.

Lemma match_not_dash {A} (s : string) (a : string → A) (b : A) :
  (∀ rest, s ≠ String "-" rest) →
  match s with String "-" rest => a rest | _ => b end = b.
Proof.
  intros Hne. destruct s as [|c s]; [done|].
  destruct c as [[] [] [] [] [] [] [] []]; try done.
  by destruct (Hne s).
Qed.

(** X14. The project name that [extract_session_info] derives holds no
    separator: for a directory name that starts with a dash it is the text
    after the last dash and holds no dash; for any other name it holds no
    slash. *)
Theorem project_name_clean (session_dir_name : string) :
  (∀ rest, session_dir_name = String "-" rest →
           Aggregation.project_name session_dir_name = Py.last_segment "-" rest
           ∧ Text.contains "-" (Aggregation.project_name session_dir_name) = false)
  ∧ ((∀ rest, session_dir_name ≠ String "-" rest) →
     Text.contains "/" (Aggregation.project_name session_dir_name) = false).
Proof.
  split.
  - intros rest ->. split; [done|]. apply last_segment_clean.
  - intros Hne. unfold Aggregation.project_name.
    rewrite match_not_dash by done. apply last_segment_clean.
Qed.

Lemma project_name_clean_witness :
  Aggregation.project_name "-home-user-my-app" = Py.last_segment "-" "home-user-my-app"
  ∧ Text.contains "-" (Aggregation.project_name "-home-user-my-app") = false.
Proof.
  by apply (proj1 (project_name_clean "-home-user-my-app") "home-user-my-app").
Defined.

(** X15. The daily view groups a reported session under the very project
    name that the aggregation reported for it: recomputing the name from
    the session id, or taking the last path segment of the reported name,
    changes nothing. *)
Theorem daily_project_agrees (ds : Aggregation.session_dir * Aggregation.session_data) :
  Daily.project_of (Aggregation.to_result ds)
  = Aggregation.projectPath (Aggregation.to_result ds).
Proof.
  destruct ds as [d s]. unfold Daily.project_of, Aggregation.to_result.
  cbn [Aggregation.sessionId Aggregation.projectPath].
  unfold Aggregation.project_name.
  destruct (dash_cases (Aggregation.name d)) as [[rest ->]|Hne]; [done|].
  rewrite !match_not_dash by done. apply last_segment_idem.
Qed.

(** *** Sums over grouped data *)

Lemma dict_update_measure {K V} `{EqDecision K}
    (μ : V → Z) (δ : Z) (k : K) (f : V → V) (dflt : V) (d : list (K * V)) :
  (∀ v, μ (f v) = μ v + δ) → μ dflt = 0 →
  Py.sum_int ((μ ∘ snd) <$> Py.dict_update k f dflt d)
  = Py.sum_int ((μ ∘ snd) <$> d) + δ.
Proof.
  intros Hf H0. induction d as [|[k' v] d IH].
  - cbn. unfold Py.sum_int. cbn. rewrite Hf, H0. lia.
  - cbn [Py.dict_update]. destruct (decide (k = k'));
      rewrite !fmap_cons, !PyFacts.sum_int_cons; cbn [snd compose].
    + rewrite Hf. lia.
    + rewrite IH. lia.
Qed.





Lemma date_groups_snoc l s :
  Daily.date_groups (l ++ [s])
  = Py.dict_update (Daily.date_of s) (λ g, g ++ [s]) [] (Daily.date_groups l).
Proof. unfold Daily.date_groups. by rewrite foldl_app. Qed.

Lemma date_groups_NoDup l : NoDup (Daily.date_groups l).*1.
Proof.
  induction l as [|s l IH] using rev_ind; [constructor|].
  rewrite date_groups_snoc. by apply PyFacts.dict_update_NoDup.
Qed.

Lemma date_groups_count l :
  Py.sum_int (((λ g, Z.of_nat (length g)) ∘ snd) <$> Daily.date_groups l)
  = Z.of_nat (length l).
Proof.
  induction l as [|s l IH] using rev_ind; [done|].
  rewrite date_groups_snoc, (dict_update_measure _ 1), IH, length_app; [simpl; lia| |done].
  intros g. rewrite length_app. simpl. lia.
Qed.




Lemma elem_of_daily d data limit :
  d ∈ Daily.process_daily_with_projects data limit →
  ∃ g, g ∈ Daily.date_groups data ∧ d = Daily.make_day g.
Proof.
  unfold Daily.process_daily_with_projects. intros Hd.
  apply ViewsFacts.slice_to_subseteq, PyFacts.elem_of_sorted in Hd.
  apply list_elem_of_fmap in Hd as (g & -> & Hg). by exists g.
Qed.



(** X17. When the daily view is not cut (its limit is positive and not
    smaller than the number of distinct dates), every session is counted
    in exactly one day: the [totalSessions] of the days add up to the
    number of sessions given. *)
Theorem daily_counts_every_session
    (data : list Aggregation.session_result) (limit : option Z) :
  0 ≤ Py.or_default limit 30 →
  (length (Daily.date_groups data) ≤ Z.to_nat (Py.or_default limit 30))%nat →
  Py.sum_int (Daily.totalSessions
                <$> Daily.process_daily_with_projects data limit)
  = Z.of_nat (length data).
Proof.
  intros Hn Hlen. unfold Daily.process_daily_with_projects, Py.slice_to.
  replace (Py.or_default limit 30 <? 0) with false by lia.
  rewrite take_ge.
  - rewrite (PyFacts.sum_int_perm _
               (Daily.totalSessions <$> (Daily.make_day <$> Daily.date_groups data))).
    + rewrite <- list_fmap_compose, <- date_groups_count.
      f_equal. apply list_fmap_ext. by intros i [date ss] _.
    + by rewrite PyFacts.sorted_perm.
  - by rewrite PyFacts.length_sorted, length_fmap.
Qed.

Lemma daily_counts_every_session_witness :
  let sess id day c :=
    Aggregation.SessionResult id (Aggregation.project_name id)
      10 20 0 0 c day [] in
  let data := [sess "-home-u-beta" "2025-06-01" (1 # 4);
               sess "-home-u-gamma" "2025-06-02" (1 # 2);
               sess "-home-u-beta" "2025-06-01" 1%Q] in
  Py.sum_int (Daily.totalSessions <$> Daily.process_daily_with_projects data None)
  = 3.
Proof.
  intros sess data.
  apply (daily_counts_every_session data None); [by cbn|vm_compute; lia].
Defined.

Lemma monthly_group_month l k g :
  (k, g) ∈ Monthly.monthly_groups l → Monthly.month g = k.
Proof.
  revert k g. induction l as [|d l IH] using rev_ind; intros k g Hin.
  - by apply elem_of_nil in Hin.
  - rewrite ViewsFacts.monthly_groups_snoc in Hin.
    apply ProcessFacts.elem_of_dict_update in Hin as [Hin|[-> [g0 ->]]]; [by apply IH|done].
Qed.

(** X18. The shape of the two views, for every limit: no date occurs twice
    in the daily view and no month occurs twice in the monthly view; and
    under a positive limit [n] (30 days and 10 months when none is given)
    the daily view has at most [n] days and the monthly view at most [n]
    months. *)
Theorem view_keys_distinct
    (data : list Aggregation.session_result) (daily_data : list Daily.day)
    (limit : option Z) :
  NoDup (Daily.date <$> Daily.process_daily_with_projects data limit)
  ∧ NoDup (Monthly.month <$> Monthly.process_monthly_data daily_data limit)
  ∧ (0 < Py.or_default limit 30 →
     Z.of_nat (length (Daily.process_daily_with_projects data limit))
     ≤ Py.or_default limit 30)
  ∧ (0 < Py.or_default limit 10 →
     Z.of_nat (length (Monthly.process_monthly_data daily_data limit))
     ≤ Py.or_default limit 10).
Proof.
  split; [|split; [|split]].
  - unfold Daily.process_daily_with_projects, Py.slice_to.
    set (l := Py.sorted _ _).
    assert (Hl : NoDup (Daily.date <$> l)).
    { unfold l. rewrite PyFacts.sorted_perm, <- list_fmap_compose.
      erewrite list_fmap_ext; [apply date_groups_NoDup|]. by intros i [date ss] _. }
    destruct (_ <? 0); rewrite fmap_take;
      apply (sublist_NoDup _ _ Hl), sublist_take.
  - unfold Monthly.process_monthly_data, Py.slice_from.
    set (l := Py.sorted _ _).
    assert (Hl : NoDup (Monthly.month <$> l)).
    { unfold l. rewrite PyFacts.sorted_perm, <- list_fmap_compose.
      rewrite (proj1 (Forall_fmap_ext (Monthly.month ∘ snd) fst
                        (Monthly.monthly_groups daily_data))).
      - apply ViewsFacts.monthly_groups_NoDup.
      - apply Forall_forall. intros [k g] Hin. exact (monthly_group_month _ _ _ Hin). }
    destruct (_ <? 0); rewrite fmap_drop;
      apply (sublist_NoDup _ _ Hl), sublist_drop.
  - intros H30. unfold Daily.process_daily_with_projects, Py.slice_to.
    replace (Py.or_default limit 30 <? 0) with false by lia.
    rewrite length_take. lia.
  - intros H10. unfold Monthly.process_monthly_data, Py.slice_from.
    replace (- Py.or_default limit 10 <? 0) with true by lia.
    rewrite length_drop, Z.opp_involutive. lia.
Qed.

Lemma view_keys_distinct_witness :
  let sess id day c :=
    Aggregation.SessionResult id (Aggregation.project_name id)
      10 20 0 0 c day [] in
  let data := [sess "-home-u-beta" "2025-06-01" (1 # 4);
               sess "-home-u-gamma" "2025-06-02" (1 # 2);
               sess "-home-u-beta" "2025-06-03" 1%Q] in
  Z.of_nat (length (Daily.process_daily_with_projects data (Some 2))) ≤ 2.
Proof.
  intros sess data.
  by apply (proj1 (proj2 (proj2 (view_keys_distinct data [] (Some 2))))).
Defined.

Lemma date_groups_keys data k :
  k ∈ (Daily.date_groups data).*1 → ∃ s, s ∈ data ∧ Daily.date_of s = k.
Proof.
  induction data as [|s data IH] using rev_ind.
  - intros Hk. by apply elem_of_nil in Hk.
  - rewrite date_groups_snoc. intros Hk.
    apply ProcessFacts.keys_dict_update_subset in Hk as [Hk| ->].
    + destruct (IH Hk) as (s' & ? & ?). exists s'. split; [|done].
      apply elem_of_app. by left.
    + exists s. split; [|done]. apply elem_of_app. right. by left.
Qed.

Lemma monthly_groups_keys daily k :
  k ∈ (Monthly.monthly_groups daily).*1 → ∃ d, d ∈ daily ∧ Monthly.month_of d = k.
Proof.
  induction daily as [|d daily IH] using rev_ind.
  - intros Hk. by apply elem_of_nil in Hk.
  - rewrite ViewsFacts.monthly_groups_snoc. intros Hk.
    apply ProcessFacts.keys_dict_update_subset in Hk as [Hk| ->].
    + destruct (IH Hk) as (d' & ? & ?). exists d'. split; [|done].
      apply elem_of_app. by left.
    + exists d. split; [|done]. apply elem_of_app. right. by left.
Qed.

(** X19. The [monthly] command reads no dates, so its rollup has no months:
    every session that the aggregation returns under [monthly] (or
    [blocks]) carries the placeholder date [1970-01-01], the daily view
    files all of them under [unknown], and every group of the monthly view
    is the group [unknown], whatever timestamps the log lines hold. *)
Theorem monthly_command_has_no_months
    (mode : Cost.cost_mode) (pricing_data : gmap string Cost.pricing)
    (last limit : option Z) (files : list Aggregation.log_file) :
  let data :=
    Aggregation.process_files_with_global_dedup mode pricing_data
      (Aggregation.Options Aggregation.Monthly last) files in
  (∀ r, r ∈ data → Aggregation.lastActivity r = "1970-01-01")
  ∧ (∀ d, d ∈ Daily.process_daily_with_projects data limit
          → Daily.date d = "unknown")
  ∧ (∀ g, g ∈ Monthly.display_monthly data limit → Monthly.month g = "unknown").
Proof.
  intros data.
  assert (Hdata : ∀ r, r ∈ data → Aggregation.lastActivity r = "1970-01-01").
  { intros r. apply ProcessFacts.undated_results. by left. }
  assert (Hdaily : ∀ lim d, d ∈ Daily.process_daily_with_projects data lim
                            → Daily.date d = "unknown").
  { intros lim d Hd. apply elem_of_daily in Hd as ([date ss] & Hg & ->).
    cbn [Daily.make_day Daily.date].
    destruct (date_groups_keys data date) as (r & Hr & <-).
    { apply list_elem_of_fmap. by exists (date, ss). }
    unfold Daily.date_of. by rewrite (Hdata r Hr). }
  split; [exact Hdata|]. split; [apply Hdaily|].
  intros g Hg. unfold Monthly.display_monthly, Monthly.process_monthly_data in Hg.
  apply ViewsFacts.slice_from_subseteq, PyFacts.elem_of_sorted in Hg.
  apply list_elem_of_fmap in Hg as ([k g'] & -> & Hin). cbn [snd].
  rewrite (monthly_group_month _ _ _ Hin).
  destruct (monthly_groups_keys (Daily.process_daily_with_projects data None) k)
    as (d & Hd & <-).
  { apply list_elem_of_fmap. by exists (k, g'). }
  unfold Monthly.month_of. by rewrite (Hdaily None d Hd).
Qed.

Lemma monthly_command_has_no_months_witness :
  let e := Log.UsageEntry (Some "m") (Some "r") (Log.TsParsed 5 "2025-06-01")
             None (Cost.Usage 10 5 0 0) Cost.CostAbsent in
  let f := Aggregation.LogFile "/p/-a/1.jsonl" (Aggregation.SessionDir "/p" "-a")
             (Some 100) (Some [Log.LUsage e]) in
  Monthly.month (Monthly.MonthGroup "unknown" 0 1) = "unknown".
Proof.
  intros e f.
  apply (proj2 (proj2 (monthly_command_has_no_months Cost.Auto Cost.fallback_pricing
                         None None [f]))).
  vm_compute. by left.
Defined.

End ViewsMore.

(** ** Live monitor: further properties of the scan and of the synthesized
       block *)

Module LiveMore.
Import Live.

Lemma scan_total pd cutoff s0 ls s :
  scan_lines pd cutoff s0 ls = Some s →
  s_total_tokens s = s_total_tokens s0 + Py.sum_int (counted cutoff ls).*2.
Proof.
  revert s0. induction ls as [|l ls IH]; intros s0; cbn [scan_lines counted].
  - intros [= ->]. unfold Py.sum_int. simpl. lia.
  - destruct l as [| |ts msg]; [by apply IH..|].
    destruct ts as [| |t]; [by destruct msg; apply IH|done|].
    destruct (t <? cutoff) eqn:Ht.
    + intros Hs. rewrite (IH _ Hs). by destruct msg.
    + intros Hs. rewrite (IH _ Hs). destruct msg as [m|]; [|done].
      rewrite fmap_cons, PyFacts.sum_int_cons. cbn. lia.
Qed.

(** The timing of a scan is consistent: no start without a last activity,
    both at or after the cut-off and in order, and no tokens before the
    first timestamp. *)
Lemma scan_timing pd cutoff s0 ls s :
  scan_lines pd cutoff s0 ls = Some s →
  ((s_start_time s0 = None ↔ s_last_activity s0 = None)
   ∧ (∀ a b, s_start_time s0 = Some a → s_last_activity s0 = Some b → cutoff ≤ a ≤ b)
   ∧ (s_last_activity s0 = None → s_total_tokens s0 = 0)) →
  (s_start_time s = None ↔ s_last_activity s = None)
  ∧ (∀ a b, s_start_time s = Some a → s_last_activity s = Some b → cutoff ≤ a ≤ b)
  ∧ (s_last_activity s = None → s_total_tokens s = 0).
Proof.
  revert s0. induction ls as [|l ls IH]; intros s0; cbn [scan_lines].
  - by intros [= ->].
  - destruct l as [| |ts msg]; [by apply IH..|].
    destruct ts as [| |t]; [by apply IH|done|].
    destruct (t <? cutoff) eqn:Ht; [by apply IH|].
    intros Hs (Hboth & Hord & Hzero). apply (IH _ Hs). clear IH Hs.
    assert (Htrack :
      (s_start_time (track_timing t s0) = None
       ↔ s_last_activity (track_timing t s0) = None)
      ∧ (∀ a b, s_start_time (track_timing t s0) = Some a →
                s_last_activity (track_timing t s0) = Some b → cutoff ≤ a ≤ b)
      ∧ s_last_activity (track_timing t s0) ≠ None).
    { unfold track_timing. cbn [s_start_time s_last_activity].
      destruct (s_start_time s0) as [a0|] eqn:Ha, (s_last_activity s0) as [b0|] eqn:Hb.
      - specialize (Hord a0 b0 eq_refl eq_refl).
        destruct (t <? a0) eqn:H1, (b0 <? t) eqn:H2;
          (split; [done|]); (split; [intros a b [= <-] [= <-]; lia|done]).
      - discriminate (proj2 Hboth eq_refl).
      - discriminate (proj1 Hboth eq_refl).
      - split; [done|]. split; [intros a b [= <-] [= <-]; lia|done]. }
    destruct Htrack as (Hb' & Ho' & Hl').
    destruct msg as [m|]; [|by split; [|split]].
    unfold count_usage. cbn [s_start_time s_last_activity s_total_tokens].
    by split; [|split].
Qed.

(** X20. What the live scan keeps of a file is consistent: the session's
    [total_tokens] is the sum of the tokens of the usage lines stamped at
    or after the cut-off; the per-minute buckets add up to that total; the
    start time and the last activity are both present or both absent, and
    when present they lie at or after the cut-off, in order; and a session
    with a nonzero token total always has a last activity. *)
Theorem scan_is_consistent
    (pd : gmap string Cost.pricing) (f : recent_file) (ls : list line)
    (sd : session_data) :
  lines f = Some ls →
  scan_file pd f = Some sd →
  let cutoff := now_utc f - minutes 2 in
  total_tokens sd = Py.sum_int (counted cutoff ls).*2
  ∧ Py.sum_int (tokens_by_minute sd).*2 = total_tokens sd
  ∧ (start_time sd = None ↔ last_activity sd = None)
  ∧ (∀ a b, start_time sd = Some a → last_activity sd = Some b → cutoff ≤ a ≤ b)
  ∧ (total_tokens sd ≠ 0 → is_Some (last_activity sd)).
Proof.
  intros Hls Hsd cutoff. unfold scan_file in Hsd. rewrite Hls in Hsd.
  fold cutoff in Hsd.
  destruct (scan_lines pd cutoff empty_scan ls) as [s|] eqn:Hscan; [|done].
  destruct (_ || _); [|done].
  pose proof (scan_total _ _ _ _ _ Hscan) as Htot.
  pose proof (LiveFacts.scan_tokens_by_minute _ _ _ _ _ Hscan) as Hmin.
  destruct (scan_timing _ _ _ _ _ Hscan) as (Hboth & Hord & Hzero); [done|].
  destruct (burn_rates s) as [rt rc]. injection Hsd as <-.
  cbn [total_tokens tokens_by_minute start_time last_activity].
  cbn in Htot. split; [lia|]. split; [|split; [done|split; [done|]]].
  - rewrite Hmin, LiveFacts.bucket_sum. unfold Py.sum_int at 1. cbn. lia.
  - intros Hne. destruct (s_last_activity s); [done|]. by specialize (Hzero eq_refl).
Qed.

Lemma scan_is_consistent_witness :
  let entry t n :=
    Json (Parsed t) (Some (UsagePart (Cost.Usage n 0 0 0) None Cost.CostAbsent)) in
  let f := RecentFile "-home-u-project" 0 (minutes 3)
             (Some [entry 0 999; entry (minutes 2) 100; Json (Parsed (minutes 4)) None;
                    entry (minutes 3) 400]) in
  ∃ sd, scan_file ∅ f = Some sd ∧ total_tokens sd = Py.sum_int [100; 400].
Proof.
  intros entry f.
  destruct (scan_file ∅ f) as [sd|] eqn:Hsd; [|by vm_compute in Hsd].
  exists sd. split; [done|].
  apply (scan_is_consistent ∅ f _ sd eq_refl Hsd).
Defined.

Lemma current_sessions_snoc pd files f :
  get_current_session_data pd (files ++ [f])
  = match scan_file pd f with
    | Some sd => Py.dict_set (session_name f) sd (get_current_session_data pd files)
    | None => get_current_session_data pd files
    end.
Proof. unfold get_current_session_data. by rewrite foldl_app. Qed.

(** X21. The current sessions are keyed by directory name alone, so two
    recent files that share a directory name (two files of one session, or
    the same project in two roots) are not added up: the entry of a name is
    the scan of the last listed file of that name that had recent usage.
    No name occurs twice. *)
Theorem current_sessions_last_wins
    (pd : gmap string Cost.pricing) (files : list recent_file) (name : string) :
  Py.dict_get name (get_current_session_data pd files)
  = last (omap (λ f, if decide (session_name f = name) then scan_file pd f else None)
               files)
  ∧ NoDup (get_current_session_data pd files).*1.
Proof.
  induction files as [|f files [IH IHnd]] using rev_ind; [by split; [|constructor]|].
  rewrite current_sessions_snoc, omap_app. cbn [omap list_omap].
  destruct (scan_file pd f) as [sd|] eqn:Hsd.
  - split; [|by apply PyFacts.dict_update_NoDup].
    unfold Py.dict_set. rewrite PyFacts.dict_get_update.
    destruct (decide (session_name f = name)) as [<-|Hne].
    + rewrite decide_True by done. cbn. by rewrite last_snoc.
    + rewrite decide_False by done. cbn. by rewrite app_nil_r.
  - split; [|done]. destruct (decide _); cbn; by rewrite app_nil_r.
Qed.

Lemma current_sessions_scanned pd files k sd :
  (k, sd) ∈ get_current_session_data pd files →
  ∃ f, f ∈ files ∧ scan_file pd f = Some sd.
Proof.
  induction files as [|f files IH] using rev_ind.
  - intros Hin. by apply elem_of_nil in Hin.
  - rewrite current_sessions_snoc. setoid_rewrite elem_of_app.
    destruct (scan_file pd f) as [sd'|] eqn:Hsd.
    + intros Hin. apply ProcessFacts.elem_of_dict_update in Hin as [Hin|[_ [v ->]]].
      * destruct (IH Hin) as (f' & ? & ?). exists f'. by split; [left|].
      * exists f. split; [right; by apply list_elem_of_singleton|done].
    + intros Hin. destruct (IH Hin) as (f' & ? & ?). exists f'. by split; [left|].
Qed.

Lemma sum_tokens_foldl acc (cs : list (string * session_data)) :
  foldl (λ acc kv, acc + total_tokens kv.2) acc cs = acc + sum_tokens cs.
Proof.
  unfold sum_tokens. revert acc. induction cs as [|kv cs IH]; intros acc; cbn [foldl].
  - lia.
  - rewrite IH, (IH (0 + _)). lia.
Qed.

Lemma sum_tokens_zero (cs : list (string * session_data)) :
  (∀ kv, kv ∈ cs → total_tokens kv.2 = 0) → sum_tokens cs = 0.
Proof.
  induction cs as [|kv cs IH]; intros Hz; [done|].
  unfold sum_tokens. cbn [foldl]. rewrite sum_tokens_foldl, IH.
  - rewrite (Hz kv); [lia|by left].
  - intros kv' ?. apply Hz. by right.
Qed.

Lemma latest_activity_some (cs : list (string * session_data)) :
  (∃ kv, kv ∈ cs ∧ is_Some (last_activity kv.2)) → is_Some (latest_activity cs).
Proof.
  unfold latest_activity.
  assert (Hgen : ∀ acc,
            is_Some acc ∨ (∃ kv, kv ∈ cs ∧ is_Some (last_activity kv.2)) →
            is_Some (foldl (λ acc kv,
                              match last_activity kv.2, acc with
                              | Some t, None => Some t
                              | Some t, Some e => if e <? t then Some t else Some e
                              | None, _ => acc
                              end) acc cs)).
  { induction cs as [|kv cs IH]; intros acc Hor; cbn [foldl].
    - destruct Hor as [?|(kv & Hin & _)]; [done|by apply elem_of_nil in Hin].
    - apply IH. destruct Hor as [[e ->]|(kv' & Hin & Hs)].
      + left. destruct (last_activity kv.2); [|done]. by destruct (e <? _).
      + apply elem_of_cons in Hin as [->|Hin]; [|right; by exists kv'].
        left. destruct Hs as [t ->]. destruct acc as [e|]; [|done].
        by destruct (e <? t). }
  intros H. apply Hgen. by right.
Qed.

(** X22. For the sessions that the live scan returns, a block is synthesized
    exactly when their tokens total more than 0: a positive total always
    comes with a last activity, so no active usage is ever shown as idle;
    and recent activity that carries only cost and no tokens is shown as
    idle. *)
Theorem synthesized_iff_tokens
    (pd : gmap string Cost.pricing) (files : list recent_file) :
  let current_sessions := get_current_session_data pd files in
  is_Some (synthesize current_sessions) ↔ 0 < sum_tokens current_sessions.
Proof.
  intros cs. unfold synthesize. split.
  - destruct cs as [|kv0 rest]; [by intros [? ?]|].
    destruct (latest_activity _); [|by intros [? ?]].
    destruct (0 <? _) eqn:HT; [|by intros [? ?]]. intros _. lia.
  - intros HT.
    assert (Hlast : is_Some (latest_activity cs)).
    { apply latest_activity_some.
      destruct (decide (Forall (λ kv, total_tokens kv.2 = 0) cs)) as [Hz|Hnz].
      - rewrite Forall_forall in Hz. rewrite (sum_tokens_zero cs Hz) in HT. lia.
      - apply not_Forall_Exists in Hnz; [|apply _].
        apply Exists_exists in Hnz as ([k sd] & Hin & Hne). exists (k, sd).
        split; [done|].
        destruct (current_sessions_scanned pd files k sd Hin) as (f & _ & Hscan).
        unfold scan_file in Hscan.
        destruct (lines f) as [ls|] eqn:Hls; [|done].
        destruct (scan_lines pd _ empty_scan ls) as [s|] eqn:Hs; [|done].
        destruct (scan_timing _ _ _ _ _ Hs) as (_ & _ & Hzero); [done|].
        destruct (_ || _); [|done]. destruct (burn_rates s).
        injection Hscan as <-. simpl in *.
        destruct (s_last_activity s); [done|]. by specialize (Hzero eq_refl). }
    destruct cs as [|kv0 rest] eqn:Hcs; [by cbn in HT|].
    destruct Hlast as [latest ->].
    replace (0 <? sum_tokens (kv0 :: rest)) with true by lia. done.
Qed.

(** *** The cost rate *)












End LiveMore.

(** ** Monitor display helpers *)

Module MonitorFacts.
Import Monitor.

Lemma int_of_nonneg (x : Q) : (0 <= x)%Q → int_of x = Qfloor x.
Proof.
  intros Hx. unfold int_of, Qfloor. destruct x as [n d].
  unfold Qle in Hx. simpl in *. apply Z.quot_div_nonneg; lia.
Qed.

Lemma Qfloor_unique (y : Q) (z : Z) :
  (inject_Z z <= y)%Q → (y < inject_Z (z + 1))%Q → Qfloor y = z.
Proof.
  intros Hle Hlt.
  pose proof (Qfloor_le y) as H1. pose proof (Qlt_floor y) as H2.
  assert (Qfloor y < z + 1).
  { rewrite Zlt_Qlt. eapply Qle_lt_trans; eassumption. }
  assert (z < Qfloor y + 1).
  { rewrite Zlt_Qlt. eapply Qle_lt_trans; eassumption. }
  lia.
Qed.

Lemma Qfloor_bounds (y : Q) (lo hi : Z) :
  (inject_Z lo <= y)%Q → (y < inject_Z hi)%Q → lo ≤ Qfloor y < hi.
Proof.
  intros Hlo Hhi.
  pose proof (Qfloor_le y) as H1. pose proof (Qlt_floor y) as H2. split.
  - assert (lo < Qfloor y + 1); [|lia].
    rewrite Zlt_Qlt. eapply Qle_lt_trans; eassumption.
  - rewrite Zlt_Qlt. eapply Qle_lt_trans; eassumption.
Qed.

Lemma clamp_bounds (p : Q) : (0 <= clamp p)%Q ∧ (clamp p <= 100)%Q.
Proof.
  unfold clamp. split; [apply Q.le_max_l|].
  apply Q.max_lub; [done|apply Q.le_min_l].
Qed.

Lemma clamp_below (p : Q) : (p < 100)%Q → (clamp p < 100)%Q.
Proof.
  intros Hp. unfold clamp. apply Q.max_lub_lt; [done|].
  eapply Qle_lt_trans; [apply Q.le_min_r|done].
Qed.

Lemma clamp_full (p : Q) : (100 <= p)%Q → (100 <= clamp p)%Q.
Proof.
  intros Hp. unfold clamp.
  eapply Qle_trans; [|apply Q.le_max_r]. by apply Q.min_glb.
Qed.

(** X24. For a width of at least 1, the bar always has exactly [width]
    cells, whatever the percentage (negative, above 100): all of them full
    from 100 percent on, and below 100 percent a run of full cells, then
    the cursor, then shade. The status text is returned unchanged. *)
Theorem progress_bar_width (percentage : Q) (width : Z) (status_color : string) :
  1 ≤ width →
  let bar := create_progress_bar percentage width status_color in
  bar.1 = status_color
  ∧ length bar.2 = Z.to_nat width
  ∧ ((100 <= percentage)%Q → bar.2 = replicate (Z.to_nat width) Filled)
  ∧ ((percentage < 100)%Q →
     ∃ filled, 0 ≤ filled < width
               ∧ bar.2 = replicate (Z.to_nat filled) Filled ++ [Cursor]
                         ++ replicate (Z.to_nat (width - filled - 1)) Shade).
Proof.
  intros Hw bar. unfold bar, create_progress_bar.
  destruct (clamp_bounds percentage) as [H0 H100].
  destruct (Qle_bool 100 (clamp percentage)) eqn:Hfull; cbn [fst snd negb].
  - split; [done|]. split; [by rewrite length_replicate|]. split; [done|].
    intros Hp. apply clamp_below in Hp. apply Qle_bool_iff in Hfull.
    by apply Qlt_not_le in Hp.
  - assert (Hlt : (clamp percentage < 100)%Q).
    { apply Qnot_le_lt. intros Hle. apply Qle_bool_iff in Hle. congruence. }
    set (q := (inject_Z width * clamp percentage / 100)%Q).
    assert (Hq0 : (0 <= q)%Q).
    { unfold q. apply Qle_shift_div_l; [done|]. rewrite Qmult_0_l.
      apply Qmult_le_0_compat; [|done].
      change 0%Q with (inject_Z 0). rewrite <- Zle_Qle. lia. }
    assert (Hqw : (q < inject_Z width)%Q).
    { unfold q. apply Qlt_shift_div_r; [done|].
      apply Qmult_lt_l; [|done]. change 0%Q with (inject_Z 0).
      rewrite <- Zlt_Qlt. lia. }
    rewrite (int_of_nonneg q Hq0).
    pose proof (Qfloor_bounds q 0 width Hq0 Hqw) as Hf.
    set (filled := Qfloor q) in *.
    replace (Z.max 0 (width - filled - 1)) with (width - filled - 1) by lia.
    split; [done|]. split; [|split].
    + rewrite !length_app, !length_replicate. simpl. lia.
    + intros Hp. apply clamp_full, Qle_bool_iff in Hp. congruence.
    + intros _. by exists filled.
Qed.

Lemma progress_bar_width_witness :
  length (create_progress_bar (73 # 2) 20 "ok").2 = Z.to_nat 20.
Proof. by apply (progress_bar_width (73 # 2) 20 "ok"). Defined.

Lemma Qfloor_add_int (n : Z) (x : Q) : Qfloor (inject_Z n + x) = n + Qfloor x.
Proof.
  pose proof (Qfloor_le x) as H1. pose proof (Qlt_floor x) as H2.
  apply Qfloor_unique.
  - rewrite inject_Z_plus. by apply Qplus_le_r.
  - replace (n + Qfloor x + 1) with (n + (Qfloor x + 1)) by lia.
    rewrite inject_Z_plus. by apply Qplus_lt_r.
Qed.

(** X25. For a duration that is not negative, the text of [format_time]
    stands for the whole minutes of the duration: minutes alone below one
    hour, hours alone when no minute is left over, hours and 1 to 59
    minutes otherwise. *)
Theorem format_time_whole (minutes : Q) :
  (0 <= minutes)%Q →
  whole_minutes (format_time minutes) = Qfloor minutes
  ∧ match format_time minutes with
    | Minutes m => 0 ≤ m < 60
    | Hours h => 1 ≤ h
    | HoursMinutes h m => 1 ≤ h ∧ 1 ≤ m < 60
    end.
Proof.
  intros Hm. unfold format_time.
  destruct (Qle_bool 60 minutes) eqn:H60; cbn [negb].
  - apply Qle_bool_iff in H60.
    set (h := floordiv60 minutes).
    assert (Hh : (inject_Z h <= minutes / 60)%Q ∧ (minutes / 60 < inject_Z (h + 1))%Q).
    { split; [apply Qfloor_le|apply Qlt_floor]. }
    destruct Hh as [Hh1 Hh2].
    assert (E : (60 * (minutes / 60) == minutes)%Q) by field.
    assert (Hr0 : (0 <= mod60 minutes)%Q).
    { unfold mod60. fold h. apply (Qmult_le_l _ _ 60) in Hh1; [|done].
      rewrite E in Hh1. unfold Qminus. by rewrite <- Qle_minus_iff. }
    assert (Hr60 : (mod60 minutes < 60)%Q).
    { unfold mod60. fold h. apply (Qmult_lt_l _ _ 60) in Hh2; [|done].
      rewrite E, inject_Z_plus in Hh2.
      apply (Qplus_lt_l _ _ (60 * inject_Z h)).
      assert (E1 : (minutes - 60 * inject_Z h + 60 * inject_Z h == minutes)%Q) by ring.
      assert (E2 : (60 + 60 * inject_Z h == 60 * (inject_Z h + inject_Z 1))%Q) by ring.
      by rewrite E1, E2. }
    assert (H1h : 1 ≤ h).
    { assert (1 ≤ Qfloor (minutes / 60) < Qfloor (minutes / 60) + 1); [|unfold h, floordiv60; lia].
      apply Qfloor_bounds; [|apply Qlt_floor].
      apply Qle_shift_div_l; [done|]. by rewrite Qmult_1_l. }
    rewrite (int_of_nonneg _ Hr0).
    pose proof (Qfloor_bounds (mod60 minutes) 0 60 Hr0 Hr60) as Hfr.
    assert (Hsplit : Qfloor minutes = 60 * h + Qfloor (mod60 minutes)).
    { rewrite <- Qfloor_add_int. apply Qfloor_comp. unfold mod60. fold h.
      rewrite inject_Z_mult. change (inject_Z 60) with 60%Q. ring. }
    destruct (Qfloor (mod60 minutes) =? 0) eqn:Hz; cbn [whole_minutes].
    + split; [lia|done].
    + split; [lia|]. split; [done|lia].
  - assert (Hlt : (minutes < 60)%Q).
    { apply Qnot_le_lt. intros Hle. apply Qle_bool_iff in Hle. congruence. }
    rewrite (int_of_nonneg _ Hm). cbn [whole_minutes]. split; [done|].
    by apply (Qfloor_bounds minutes 0 60).
Qed.

Lemma format_time_whole_witness :
  whole_minutes (format_time (365 # 2)) = Qfloor (365 # 2).
Proof. by apply (format_time_whole (365 # 2)). Defined.

End MonitorFacts.

(** ** Date filter *)

Module DateFilterFacts.
Import Aggregation DateFilter.

(** The two timestamp scans read the same member of a line. *)
Lemma earliest_loop_cons l lines acc :
  earliest_loop (l :: lines) acc
  = match line_timestamp l with
    | Log.TsAbsent | Log.TsMalformed => earliest_loop lines acc
    | Log.TsNotString => None
    | Log.TsParsed date _ =>
        earliest_loop lines
          (match acc with
           | None => Some date
           | Some e => if date <? e then Some date else acc
           end)
    end.
Proof. done. Qed.

Lemma range_loop_earliest lines e l :
  fst <$> range_loop lines e l = earliest_loop lines e.
Proof.
  revert e l. induction lines as [|ln lines IH]; intros e l; [done|].
  rewrite earliest_loop_cons. cbn [range_loop].
  destruct (line_timestamp ln); try done; exact (IH _ _).
Qed.

Lemma date_range_fst (f : log_file) :
  (get_file_date_range f).1 = get_earliest_timestamp f.
Proof.
  unfold get_file_date_range, get_earliest_timestamp.
  destruct (content f) as [lines|]; [|done].
  rewrite <- (range_loop_earliest lines None None).
  by destruct (range_loop lines None None).
Qed.

Lemma range_loop_both lines e l r :
  range_loop lines e l = Some r →
  (e = None ↔ l = None) → (r.1 = None ↔ r.2 = None).
Proof.
  revert e l. induction lines as [|ln lines IH]; intros e l; cbn [range_loop].
  - by intros [= <-].
  - destruct (line_timestamp ln) as [| | |date day]; [apply IH|done|apply IH|].
    intros Hr Hboth. apply (IH _ _ Hr).
    destruct e as [e0|], l as [l0|].
    + by destruct (date <? e0), (l0 <? date).
    + discriminate (proj2 Hboth eq_refl).
    + discriminate (proj1 Hboth eq_refl).
    + done.
Qed.

(** X26. The date filter and the file ordering read the same start of a
    file: the earliest end of the range that [get_file_date_range] computes
    is the timestamp that [get_earliest_timestamp] returns. And the range
    has both ends or none: a file with a start date has an end date. *)
Theorem date_range_starts_at_earliest (f : log_file) :
  (get_file_date_range f).1 = get_earliest_timestamp f
  ∧ ((get_file_date_range f).1 = None ↔ (get_file_date_range f).2 = None).
Proof.
  split; [apply date_range_fst|].
  unfold get_file_date_range. destruct (content f) as [lines|]; [|done].
  destruct (range_loop lines None None) as [r|] eqn:Hr; [|done].
  by apply (range_loop_both lines None None r Hr).
Qed.




Lemma range_loop_not_string lines e l :
  (∃ ln, ln ∈ lines ∧ line_timestamp ln = Log.TsNotString) →
  range_loop lines e l = None.
Proof.
  revert e l. induction lines as [|ln lines IH]; intros e l (l0 & Hin & Hl0).
  - by apply elem_of_nil in Hin.
  - cbn [range_loop].
    apply elem_of_cons in Hin as [->|Hin]; [by rewrite Hl0|].
    destruct (line_timestamp ln); try done; apply IH; by exists l0.
Qed.



(** X28. One line whose [timestamp] is not a string hides the dates of its
    file: under any date filter the file is left out, whatever its other
    lines are dated. Without a date filter every file is kept. *)
Theorem non_string_timestamp_hides_file
    (f : log_file) (lines : list Log.line) (since_date until_date : option Z) :
  content f = Some lines →
  (∃ ln, ln ∈ lines ∧ line_timestamp ln = Log.TsNotString) →
  (is_Some since_date ∨ is_Some until_date →
   should_include_file f since_date until_date = false)
  ∧ should_include_file f None None = true.
Proof.
  intros Hc Hbad. split; [|done]. intros Hsome.
  assert (Hrange : get_file_date_range f = (None, None)).
  { unfold get_file_date_range. by rewrite Hc, range_loop_not_string. }
  unfold should_include_file. rewrite Hrange.
  destruct since_date, until_date;
    try (by destruct (excluded_by_mtime f _ _)).
  by destruct Hsome as [[? ?]|[? ?]].
Qed.

Lemma non_string_timestamp_hides_file_witness :
  let f := LogFile "/p/-a/1.jsonl" (SessionDir "/p" "-a") (Some (midnight 20000))
             (Some [Log.LOther (Log.TsParsed (midnight 20000) "2024-10-04");
                    Log.LOther Log.TsNotString]) in
  should_include_file f (Some 20000) None = false.
Proof.
  intros f.
  apply (non_string_timestamp_hides_file f _ (Some 20000) None eq_refl).
  - exists (Log.LOther Log.TsNotString). split; [by right; left|done].
  - left. by eexists.
Defined.

Lemma collect_snoc discovered f since_date until_date :
  collect (discovered ++ [f]) since_date until_date
  = let acc := collect discovered since_date until_date in
    if should_include_file f since_date until_date
    then (acc.1 ++ [f], acc.2) else (acc.1, acc.2 + 1).
Proof. unfold collect. by rewrite foldl_app. Qed.

(** X29. The collection keeps the files that pass the date filter, in the
    order of discovery, and counts the others: kept and filtered add up to
    the files discovered. Without a date filter every file is kept and
    none is counted as filtered. *)
Theorem collect_keeps_order
    (discovered : list log_file) (since_date until_date : option Z) :
  (collect discovered since_date until_date).1
  = filter (λ f, should_include_file f since_date until_date = true) discovered
  ∧ Z.of_nat (length (collect discovered since_date until_date).1)
    + (collect discovered since_date until_date).2
    = Z.of_nat (length discovered)
  ∧ collect discovered None None = (discovered, 0).
Proof.
  split; [|split].
  - induction discovered as [|f fs IH] using rev_ind; [done|].
    rewrite collect_snoc, filter_app, filter_cons, filter_nil. cbn zeta.
    destruct (should_include_file f since_date until_date) eqn:Hf; cbn [fst].
    + rewrite decide_True by done. by rewrite IH.
    + rewrite decide_False by done. by rewrite app_nil_r.
  - induction discovered as [|f fs IH] using rev_ind; [done|].
    rewrite collect_snoc. cbn zeta.
    destruct (should_include_file f since_date until_date);
      cbn [fst snd]; rewrite !length_app; simpl; lia.
  - induction discovered as [|f fs IH] using rev_ind; [done|].
    rewrite collect_snoc, IH. done.
Qed.

End DateFilterFacts.
